(** * GraphQLProject: document index and revalidation scheduler

    A shallow embedding of
    [packages/apollo-language-server/src/project/base.ts].

    The class [GraphQLProject] keeps a map from file URIs to the GraphQL
    documents extracted from them, a readiness flag that is set by the
    continuation of the initialization promise, and a pending-validation
    flag that coalesces calls to [invalidate] into one deferred call of the
    abstract [validate] hook.

    The object is modelled as a record of its fields together with the two
    pieces of the JavaScript runtime the class relies on: the queue of
    [setTimeout] callbacks and the state of [readyPromise].  Every method is
    a function from project states to project states; observable calls on
    collaborators (console, loading handler, diagnostics handler, the
    [validate] hook) are appended to a ghost list of effects. *)

From stdpp Require Import gmap strings list fin_maps.

Abbreviation DocumentUri := string (only parsing).
(** Thrown values and promise rejection reasons, as their message. *)
Abbreviation Error := string (only parsing).

(** [Position] of vscode-languageserver. *)
Record Position := mkPosition { line : nat; character : nat }.

(** [TextDocument] of vscode-languageserver, reduced to what
    [TextDocument.create(uri, languageId, version, content)] stores. *)
Module TextDocument.
Record t := create {
  uri : DocumentUri;
  languageId : string;
  version : Z;
  getText : string
}.
End TextDocument.

(** How a call completes: by returning or by throwing. *)
Inductive Completion :=
| Normal
| Throw (error : Error).

(** How a promise settles. *)
Inductive Settled :=
| Resolved
| RejectedWith (error : Error).

Inductive PromiseState :=
| Pending
| Fulfilled
| Rejected (error : Error).

Definition settle (s : Settled) : PromiseState :=
  match s with
  | Resolved => Fulfilled
  | RejectedWith error => Rejected error
  end.

(** [Promise.all] over the subtasks, given in the order in which they
    settle: it rejects with the first rejection and resolves when all
    subtasks (possibly none) have resolved. *)
Fixpoint Promise_all (subtasks : list Settled) : Settled :=
  match subtasks with
  | [] => Resolved
  | Resolved :: rest => Promise_all rest
  | RejectedWith error :: _ => RejectedWith error
  end.

(** The callbacks handed to [setTimeout(..., 0)]; the class schedules only
    one kind. *)
Inductive Task :=
| CallValidateIfNeeded.

(** Calls on collaborators, in the order they happen. *)
Inductive Effect :=
| ConsoleError (error : Error)
| LoadingShowError (message : string)
| LoadingHandle (message : string)
| PublishDiagnostics (handler : nat) (uri : DocumentUri)
| Validate
| Uncaught (error : Error).

Definition isValidate (e : Effect) : bool :=
  match e with
  | Validate => true
  | _ => false
  end.

Definition isUncaught (e : Effect) : bool :=
  match e with
  | Uncaught _ => true
  | _ => false
  end.

Fixpoint countValidate (es : list Effect) : nat :=
  match es with
  | [] => 0
  | e :: rest => (if isValidate e then 1 else 0) + countValidate rest
  end.

(** The static extension table. *)
Definition fileAssociations : gmap string string :=
  list_to_map
    [ (".graphql", "graphql");
      (".js", "javascript");
      (".ts", "typescript");
      (".jsx", "javascriptreact");
      (".tsx", "typescriptreact") ].

Definition supportedExtensions : list string :=
  [".graphql"; ".js"; ".ts"; ".jsx"; ".tsx"].

Definition quote : string := String (Ascii.ascii_of_nat 34) EmptyString.

Section GraphQLProject.

(** [GraphQLDocument] of [../document], opaque to the class. *)
Context {GraphQLDocument : Type}.

(** What the class imports: [Uri], [path], [fs], [../document] and the
    [FileSet] it is constructed with. *)
Record World := mkWorld {
  (* Uri.parse(uri).fsPath *)
  fsPath : DocumentUri -> string;
  (* Uri.file(filePath).toString() *)
  fileUri : string -> DocumentUri;
  (* path.extname *)
  extname : string -> string;
  (* fs.readFileSync(filePath, "utf8"): the contents, or the error thrown *)
  readFileSync : string -> Error + string;
  (* extractGraphQLDocuments: an array of documents, or null *)
  extractGraphQLDocuments : TextDocument.t -> option (list GraphQLDocument);
  (* GraphQLDocument.prototype.containsPosition *)
  containsPosition : GraphQLDocument -> Position -> bool;
  (* fileSet.allFiles() *)
  allFiles : list string
}.

(** The fields of a [GraphQLProject], the timer queue and the effects so
    far (oldest first). *)
Record Project := mkProject {
  _isReady : bool;
  needsValidation : bool;
  documentsByFile : gmap string (list GraphQLDocument);
  _onDiagnostics : option nat;
  readyPromise : PromiseState;
  timers : list Task;
  effects : list Effect
}.

(** The abstract members a concrete project supplies.  [validate] is
    given by how the call completes in a given state; [initialize] shows
    up as the settlement of its promises (see [InitSettled] below). *)
Record Subclass := mkSubclass {
  displayName : string;
  validate : Project -> Completion
}.

Variable world : World.
Variable self : Subclass.

(** ** Field updates *)

Definition set_isReady (b : bool) (p : Project) : Project :=
  mkProject b (needsValidation p) (documentsByFile p) (_onDiagnostics p)
            (readyPromise p) (timers p) (effects p).

Definition set_needsValidation (b : bool) (p : Project) : Project :=
  mkProject (_isReady p) b (documentsByFile p) (_onDiagnostics p)
            (readyPromise p) (timers p) (effects p).

Definition set_documentsByFile (m : gmap string (list GraphQLDocument))
    (p : Project) : Project :=
  mkProject (_isReady p) (needsValidation p) m (_onDiagnostics p)
            (readyPromise p) (timers p) (effects p).

Definition set_onDiagnostics (h : option nat) (p : Project) : Project :=
  mkProject (_isReady p) (needsValidation p) (documentsByFile p) h
            (readyPromise p) (timers p) (effects p).

Definition set_readyPromise (s : PromiseState) (p : Project) : Project :=
  mkProject (_isReady p) (needsValidation p) (documentsByFile p)
            (_onDiagnostics p) s (timers p) (effects p).

Definition set_timers (ts : list Task) (p : Project) : Project :=
  mkProject (_isReady p) (needsValidation p) (documentsByFile p)
            (_onDiagnostics p) (readyPromise p) ts (effects p).

Definition emit (e : Effect) (p : Project) : Project :=
  mkProject (_isReady p) (needsValidation p) (documentsByFile p)
            (_onDiagnostics p) (readyPromise p) (timers p) (effects p ++ [e]).

(** [setTimeout(callback, 0)] *)
Definition setTimeout (t : Task) (p : Project) : Project :=
  set_timers (timers p ++ [t]) p.

(** ** Accessors *)

Definition isReady (p : Project) : bool := _isReady p.

Definition whenReady (p : Project) : PromiseState := readyPromise p.

(** Number of calls of the [validate] hook so far. *)
Definition validations (p : Project) : nat := countValidate (effects p).

(** ** The revalidation scheduler *)

Definition invalidate (p : Project) : Project :=
  if negb (needsValidation p) && isReady p
  then set_needsValidation true (setTimeout CallValidateIfNeeded p)
  else p.

Definition validateIfNeeded (p : Project) : Project * Completion :=
  if negb (needsValidation p) || negb (isReady p) then (p, Normal)
  else
    match validate self p with
    | Normal => (set_needsValidation false (emit Validate p), Normal)
    | Throw error => (emit Validate p, Throw error)
    end.

Definition runTask (t : Task) (p : Project) : Project * Completion :=
  match t with
  | CallValidateIfNeeded => validateIfNeeded p
  end.

(** One turn of the timer phase of the event loop: the oldest callback
    runs; an exception it throws is nobody's to catch. *)
Definition runTimer (p : Project) : Project :=
  match timers p with
  | [] => p
  | t :: rest =>
      match runTask t (set_timers rest p) with
      | (p', Normal) => p'
      | (p', Throw error) => emit (Uncaught error) p'
      end
  end.

(** ** The constructor and the continuation of [readyPromise] *)

Definition construct : Project :=
  mkProject false false ∅ None Pending [] [].

Definition onInitialized (p : Project) : Project * Completion :=
  (invalidate (set_isReady true p), Normal).

(** The template string
    [`Error initializing Apollo GraphQL project "${this.displayName}": ${error}`]. *)
Definition initializeErrorMessage (error : Error) : string :=
  "Error initializing Apollo GraphQL project " +:+ quote
  +:+ displayName self +:+ quote +:+ ": " +:+ error.

Definition onInitializeError (error : Error) (p : Project)
    : Project * Completion :=
  let p := emit (ConsoleError error) p in
  let p := emit (LoadingShowError (initializeErrorMessage error)) p in
  (p, Normal).

(** [promise.then(callback)] once [promise] has settled as [s]. *)
Definition then_ (callback : Project -> Project * Completion)
    (s : Settled) (p : Project) : Project * Settled :=
  match s with
  | Resolved =>
      match callback p with
      | (p', Normal) => (p', Resolved)
      | (p', Throw error) => (p', RejectedWith error)
      end
  | RejectedWith error => (p, RejectedWith error)
  end.

(** [promise.catch(callback)] once [promise] has settled as [s]. *)
Definition catch_ (callback : Error -> Project -> Project * Completion)
    (s : Settled) (p : Project) : Project * Settled :=
  match s with
  | Resolved => (p, Resolved)
  | RejectedWith error =>
      match callback error p with
      | (p', Normal) => (p', Resolved)
      | (p', Throw error') => (p', RejectedWith error')
      end
  end.

(** [Promise.all(this.initialize()).then(...).catch(...)] at the moment
    the subtasks have settled.  A promise settles once: when
    [readyPromise] is no longer pending nothing happens. *)
Definition initSettled (subtasks : list Settled) (p : Project) : Project :=
  match readyPromise p with
  | Pending =>
      let '(p1, s1) := then_ onInitialized (Promise_all subtasks) p in
      let '(p2, s2) := catch_ onInitializeError s1 p1 in
      set_readyPromise (settle s2) p2
  | _ => p
  end.

(** ** The document index *)

Definition onDiagnostics (handler : nat) (p : Project) : Project :=
  set_onDiagnostics (Some handler) p.

Definition removeGraphQLDocumentsFor (uri : DocumentUri) (p : Project)
    : Project :=
  match documentsByFile p !! uri with
  | Some _ =>
      let p := set_documentsByFile (delete uri (documentsByFile p)) p in
      let p := match _onDiagnostics p with
               | Some handler => emit (PublishDiagnostics handler uri) p
               | None => p
               end in
      invalidate p
  | None => p
  end.

Definition documentDidChange (document : TextDocument.t) (p : Project)
    : Project :=
  match extractGraphQLDocuments world document with
  | Some documents =>
      invalidate
        (set_documentsByFile
           (<[TextDocument.uri document := documents]> (documentsByFile p)) p)
  | None => removeGraphQLDocumentsFor (TextDocument.uri document) p
  end.

Definition fileDidChange (uri : DocumentUri) (p : Project) : Project :=
  let filePath := fsPath world uri in
  let extension := extname world filePath in
  match fileAssociations !! extension with
  | None => p
  | Some languageId =>
      match readFileSync world filePath with
      | inr contents =>
          documentDidChange (TextDocument.create uri languageId (-1) contents) p
      | inl error => emit (ConsoleError error) p
      end
  end.

Definition fileWasDeleted (uri : DocumentUri) (p : Project) : Project :=
  removeGraphQLDocumentsFor uri p.

(** The loop of [scanAllIncludedFiles]; besides the project it returns
    the URIs [fileDidChange] was called with, in call order. *)
Fixpoint scanLoop (files : list string) (p : Project)
    : Project * list DocumentUri :=
  match files with
  | [] => (p, [])
  | filePath :: rest =>
      let uri := fileUri world filePath in
      match documentsByFile p !! uri with
      | Some _ => scanLoop rest p
      | None =>
          let '(p', calls) := scanLoop rest (fileDidChange uri p) in
          (p', uri :: calls)
      end
  end.

(** The body of the [async] function has no [await]: it runs to the end
    before [loadingHandler.handle] receives its promise. *)
Definition scanAllIncludedFiles (p : Project) : Project :=
  emit (LoadingHandle ("Loading queries for " +:+ displayName self))
       (scanLoop (allFiles world) p).1.

Definition documentsAt (uri : DocumentUri) (p : Project)
    : option (list GraphQLDocument) :=
  documentsByFile p !! uri.

Definition documentAt (uri : DocumentUri) (position : Position)
    (p : Project) : option GraphQLDocument :=
  match documentsByFile p !! uri with
  | None => None
  | Some queryDocuments =>
      List.find (fun document => containsPosition world document position)
                queryDocuments
  end.

(** ** The project as a transition system

    What can happen to a project after its construction: the initialization
    promises settle, the event loop fires a timer, or a caller (the
    language server, or a subclass for the protected [invalidate]) calls a
    method. *)
Inductive Event :=
| InitSettled (subtasks : list Settled)
| TimerFired
| CallOnDiagnostics (handler : nat)
| CallFileDidChange (uri : DocumentUri)
| CallFileWasDeleted (uri : DocumentUri)
| CallDocumentDidChange (document : TextDocument.t)
| CallScanAllIncludedFiles
| CallInvalidate.

Definition step (ev : Event) (p : Project) : Project :=
  match ev with
  | InitSettled subtasks => initSettled subtasks p
  | TimerFired => runTimer p
  | CallOnDiagnostics handler => onDiagnostics handler p
  | CallFileDidChange uri => fileDidChange uri p
  | CallFileWasDeleted uri => fileWasDeleted uri p
  | CallDocumentDidChange document => documentDidChange document p
  | CallScanAllIncludedFiles => scanAllIncludedFiles p
  | CallInvalidate => invalidate p
  end.

Fixpoint run (evs : list Event) (p : Project) : Project :=
  match evs with
  | [] => p
  | ev :: rest => run rest (step ev p)
  end.

(** [n] calls of [invalidate] in a row. *)
Fixpoint burst (n : nat) (p : Project) : Project :=
  match n with
  | 0 => p
  | S n' => burst n' (invalidate p)
  end.

(** The event loop runs every timer callback that is queued. *)
Definition drainTimers (p : Project) : Project :=
  Nat.iter (length (timers p)) runTimer p.


(** The pending flag is set exactly while one callback is queued, which
    only happens once the project is ready. *)
Definition schedulerConsistent (p : Project) : Prop :=
  timers p = (if needsValidation p then [CallValidateIfNeeded] else [])
  /\ (needsValidation p = true -> isReady p = true).

(** The scheduler fields of [q] are those of [p]. *)
Definition sameScheduler (p q : Project) : Prop :=
  timers q = timers p /\ needsValidation q = needsValidation p
  /\ isReady q = isReady p.

(** Whether an exception of [validate] has escaped from a timer turn. *)
Definition hasThrown (p : Project) : bool := existsb isUncaught (effects p).

(** What the methods of the document index leave alone: readiness, the
    promise, and, before readiness, the scheduler. *)
Definition lifecycleFrame (p q : Project) : Prop :=
  isReady q = isReady p
  /\ readyPromise q = readyPromise p
  /\ (isReady p = false ->
      needsValidation q = needsValidation p /\ timers q = timers p).

(** While the initialization is pending the project is not ready; the
    promise is never rejected; before readiness nothing is pending or
    queued. *)
Definition lifecycleInvariant (p : Project) : Prop :=
  (readyPromise p = Pending -> isReady p = false)
  /\ (forall error, readyPromise p <> Rejected error)
  /\ (isReady p = false -> needsValidation p = false /\ timers p = []).

(** The extractor reports a text without documents as [null], never as
    an empty array. *)
Definition extractsNonEmpty : Prop :=
  forall document documents,
    extractGraphQLDocuments world document = Some documents -> documents <> [].

(** Every file in the index has at least one document. *)
Definition indexNonEmpty (p : Project) : Prop :=
  forall uri documents,
    documentsByFile p !! uri = Some documents -> documents <> [].

End GraphQLProject.

(** ** The rest of the class

    The engine client, and the accessors that walk the whole index. *)

(** [config.engine], as far as the constructor reads it. *)
Record EngineConfig := mkEngineConfig {
  apiKey : option string;
  endpoint : option string
}.

(** [new ApolloEngineClient(apiKey, endpoint)] *)
Record ApolloEngineClient := mkApolloEngineClient {
  clientKey : string;
  clientEndpoint : option string
}.

(** The constructor's [if (engine.apiKey)]: a missing key and the empty
    string are both falsy. *)
Definition newEngineClient (config : EngineConfig) : option ApolloEngineClient :=
  match apiKey config with
  | Some key =>
      if String.eqb key EmptyString then None
      else Some (mkApolloEngineClient key (endpoint config))
  | None => None
  end.

(** The getter [engine]: the client, or the error it throws. *)
Definition engine (_engineClient : option ApolloEngineClient)
    : Error + ApolloEngineClient :=
  match _engineClient with
  | None => inl "Unable to find ENGINE_API_KEY"
  | Some client => inr client
  end.

(** Whether an effect is the publication of diagnostics for [uri] to
    [handler]. *)
Definition isPublish (handler : nat) (uri : DocumentUri) (e : Effect) : bool :=
  match e with
  | PublishDiagnostics handler' uri' =>
      Nat.eqb handler' handler && String.eqb uri' uri
  | _ => false
  end.

Definition countPublish (handler : nat) (uri : DocumentUri)
    (es : list Effect) : nat :=
  length (List.filter (isPublish handler uri) es).

Section Accessors.

Context {GraphQLDocument DefinitionNode : Type}.

(** What [typeSystemDefinitionsAndExtensions] uses of [graphql]:
    [document.ast.definitions] when the document has a syntax tree, and the
    two predicates on definitions. *)
Record Syntax := mkSyntax {
  ast : GraphQLDocument -> option (list DefinitionNode);
  isTypeSystemDefinitionNode : DefinitionNode -> bool;
  isTypeSystemExtensionNode : DefinitionNode -> bool
}.

Variable world : @World GraphQLDocument.
Variable syntax : Syntax.

(** The entries of [documentsByFile] in the order the [Map] iterates over
    them.  The index of the model does not record that order, so the
    functions that iterate take the sequence of entries, which lists every
    entry of the index once. *)
Definition enumerates (entries : list (DocumentUri * list GraphQLDocument))
    (p : @Project GraphQLDocument) : Prop :=
  NoDup entries.*1
  /\ forall uri documents,
       (uri, documents) ∈ entries <-> documentsByFile p !! uri = Some documents.

Fixpoint publishAll (handler : nat) (uris : list DocumentUri)
    (p : @Project GraphQLDocument) : Project :=
  match uris with
  | [] => p
  | uri :: rest => publishAll handler rest (emit (PublishDiagnostics handler uri) p)
  end.

Definition clearAllDiagnostics
    (entries : list (DocumentUri * list GraphQLDocument))
    (p : @Project GraphQLDocument) : Project :=
  match _onDiagnostics p with
  | None => p
  | Some handler => publishAll handler entries.*1 p
  end.

(** The getter [documents]. *)
Fixpoint documents (entries : list (DocumentUri * list GraphQLDocument))
    : list GraphQLDocument :=
  match entries with
  | [] => []
  | (_, documentsForFile) :: rest => documentsForFile ++ documents rest
  end.

Definition isTypeSystemNode (definition : DefinitionNode) : bool :=
  isTypeSystemDefinitionNode syntax definition
  || isTypeSystemExtensionNode syntax definition.

Fixpoint typeSystemNodesOf (all : list GraphQLDocument) : list DefinitionNode :=
  match all with
  | [] => []
  | document :: rest =>
      match ast syntax document with
      | None => typeSystemNodesOf rest
      | Some definitions =>
          List.filter isTypeSystemNode definitions ++ typeSystemNodesOf rest
      end
  end.

(** The getter [typeSystemDefinitionsAndExtensions]. *)
Definition typeSystemDefinitionsAndExtensions
    (entries : list (DocumentUri * list GraphQLDocument)) : list DefinitionNode :=
  typeSystemNodesOf (documents entries).

(** What [fileDidChange] stores for a URI, if it gets as far as the
    extractor: nothing for an unsupported extension or an unreadable file. *)
Definition fileDocuments (uri : DocumentUri)
    : option (option (list GraphQLDocument)) :=
  match fileAssociations !! extname world (fsPath world uri) with
  | None => None
  | Some languageId =>
      match readFileSync world (fsPath world uri) with
      | inl _ => None
      | inr contents =>
          Some (extractGraphQLDocuments world
                  (TextDocument.create uri languageId (-1) contents))
      end
  end.

(** The entry an event writes for [uri] ([Some None] when it removes the
    entry), or [None] when the event does not address [uri].  The scan is
    left out: what it writes depends on the index it finds. *)
Definition written (uri : DocumentUri) (ev : Event)
    : option (option (list GraphQLDocument)) :=
  match ev with
  | CallDocumentDidChange document =>
      if decide (TextDocument.uri document = uri)
      then Some (extractGraphQLDocuments world document)
      else None
  | CallFileWasDeleted uri' =>
      if decide (uri' = uri) then Some None else None
  | CallFileDidChange uri' =>
      if decide (uri' = uri) then fileDocuments uri else None
  | _ => None
  end.

Definition isScan (ev : Event) : bool :=
  match ev with
  | CallScanAllIncludedFiles => true
  | _ => false
  end.

Definition isTimerFired (ev : Event) : bool :=
  match ev with
  | TimerFired => true
  | _ => false
  end.

(** Whether [fileDidChange] would find documents in the file. *)
Definition yieldsDocuments (uri : DocumentUri) : bool :=
  match fileDocuments uri with
  | Some (Some _) => true
  | _ => false
  end.

(** What a method call can do to the project before it returns: write
    fields other than the pending flag and the timer queue, call a
    collaborator other than [validate], and call [invalidate].  Every
    event but the timer turn is made of such steps. *)
Inductive syncSteps : @Project GraphQLDocument -> @Project GraphQLDocument -> Prop :=
| syncSteps_done p :
    syncSteps p p
| syncSteps_documents m p q :
    syncSteps (set_documentsByFile m p) q -> syncSteps p q
| syncSteps_handler h p q :
    syncSteps (set_onDiagnostics h p) q -> syncSteps p q
| syncSteps_ready p q :
    syncSteps (set_isReady true p) q -> syncSteps p q
| syncSteps_promise s p q :
    syncSteps (set_readyPromise s p) q -> syncSteps p q
| syncSteps_emit e p q :
    isValidate e = false -> isUncaught e = false ->
    syncSteps (emit e p) q -> syncSteps p q
| syncSteps_invalidate p q :
    syncSteps (invalidate p) q -> syncSteps p q.

(** At most one callback is queued, and only with the flag set on a ready
    project. *)
Definition atMostOneTimer (p : @Project GraphQLDocument) : Prop :=
  timers p = []
  \/ (timers p = [CallValidateIfNeeded]
      /\ needsValidation p = true /\ isReady p = true).

End Accessors.

(** A sample syntax: a document is the list of its definitions, which are
    numbers; even numbers are type-system definitions and multiples of
    three are type-system extensions; the empty document has no syntax
    tree. *)
Module SampleSyntax.

Definition syntax : @Syntax (list nat) nat :=
  mkSyntax (fun document => match document with
                            | [] => None
                            | _ => Some document
                            end)
           Nat.even
           (fun n => n mod 3 =? 0).

End SampleSyntax.

(** ** Sample collaborators

    A small world and two subclasses on which the definitions can be run:
    documents are line ranges, every [.graphql] file holds one document,
    and one path cannot be read. *)
Module Sample.

Record Doc := mkDoc { firstLine : nat; lastLine : nat }.

Definition contains (d : Doc) (position : Position) : bool :=
  (firstLine d <=? line position) && (line position <=? lastLine d).

(** The suffix from the last dot on; enough for plain file names. *)
Fixpoint lastDot (s : string) : option string :=
  match s with
  | EmptyString => None
  | String c rest =>
      match lastDot rest with
      | Some ext => Some ext
      | None => if Ascii.eqb c (Ascii.ascii_of_nat 46) then Some s else None
      end
  end.

Definition suffix (s : string) : string :=
  match lastDot s with
  | Some ext => ext
  | None => EmptyString
  end.

Definition read (filePath : string) : string + string :=
  if String.eqb filePath "/missing.graphql"
  then inl "ENOENT: no such file or directory"
  else inr "query { me }".

Definition extract (document : TextDocument.t) : option (list Doc) :=
  if String.eqb (TextDocument.languageId document) "graphql"
  then Some [mkDoc 0 0]
  else None.

Definition world : @World Doc :=
  mkWorld (fun uri => uri) (fun filePath => filePath) suffix read extract
          contains ["/a.graphql"; "/notes.txt"; "/b.graphql"].

(** An extractor that reports a file without documents as an empty array. *)
Definition emptyArrayWorld : @World Doc :=
  mkWorld (fun uri => uri) (fun filePath => filePath) suffix read
          (fun _ => Some []) contains [].

Definition project : @Subclass Doc :=
  mkSubclass "sample" (fun _ => Normal).

Definition throwingProject : @Subclass Doc :=
  mkSubclass "sample" (fun _ => Throw "validation failed").

End Sample.

(** ** Collaborators that throw

    The definitions above take every call on a collaborator to return.
    Two places of the class catch what a collaborator throws and carry on:
    the [try] of [fileDidChange], which encloses [documentDidChange] and so
    the call of the diagnostics handler, and the promise chain of the
    constructor, whose [catch] callback reads [displayName], converts the
    error to a string and calls [loadingHandler.showError].  The
    definitions of this part follow the same source methods with these
    calls allowed to throw; a method returns the project together with how
    the call completes for its caller. *)

(** How the calls on the injected collaborators complete. *)
Record Collaborators := mkCollaborators {
  (* this._onDiagnostics({ uri, diagnostics: [] }) *)
  publish : nat -> DocumentUri -> Completion;
  (* the getter this.displayName: the name, or the error thrown *)
  getDisplayName : Error + string;
  (* the conversion of a rejection reason in a template string *)
  stringOfError : Error -> Error + string;
  (* this.loadingHandler.showError(message) *)
  showError : string -> Completion
}.

(** The diagnostics handler returns from every call. *)
Definition handlerReturns (collaborators : Collaborators) : Prop :=
  forall handler uri, publish collaborators handler uri = Normal.

(** Everything the [catch] callback of the constructor calls returns. *)
Definition reportingReturns (collaborators : Collaborators) : Prop :=
  (exists name, getDisplayName collaborators = inr name)
  /\ (forall error, exists text, stringOfError collaborators error = inr text)
  /\ (forall message, showError collaborators message = Normal).

Module Throwing.

Section Throwing.

Context {GraphQLDocument : Type}.
Variable world : @World GraphQLDocument.
Variable self : @Subclass GraphQLDocument.
Variable collaborators : Collaborators.

Definition removeGraphQLDocumentsFor (uri : DocumentUri)
    (p : @Project GraphQLDocument) : Project * Completion :=
  match documentsByFile p !! uri with
  | Some _ =>
      let p := set_documentsByFile (delete uri (documentsByFile p)) p in
      match _onDiagnostics p with
      | Some handler =>
          let p := emit (PublishDiagnostics handler uri) p in
          match publish collaborators handler uri with
          | Normal => (invalidate p, Normal)
          | Throw error => (p, Throw error)
          end
      | None => (invalidate p, Normal)
      end
  | None => (p, Normal)
  end.

Definition documentDidChange (document : TextDocument.t)
    (p : @Project GraphQLDocument) : Project * Completion :=
  match extractGraphQLDocuments world document with
  | Some documents =>
      (invalidate
         (set_documentsByFile
            (<[TextDocument.uri document := documents]> (documentsByFile p)) p),
       Normal)
  | None => removeGraphQLDocumentsFor (TextDocument.uri document) p
  end.

(** The [catch] of [fileDidChange] logs whatever the [try] block throws,
    the read error as well as an exception of the diagnostics handler, and
    the call returns. *)
Definition fileDidChange (uri : DocumentUri) (p : @Project GraphQLDocument)
    : Project :=
  let filePath := fsPath world uri in
  let extension := extname world filePath in
  match fileAssociations !! extension with
  | None => p
  | Some languageId =>
      match readFileSync world filePath with
      | inr contents =>
          match documentDidChange
                  (TextDocument.create uri languageId (-1) contents) p with
          | (p', Normal) => p'
          | (p', Throw error) => emit (ConsoleError error) p'
          end
      | inl error => emit (ConsoleError error) p
      end
  end.

Definition fileWasDeleted (uri : DocumentUri) (p : @Project GraphQLDocument)
    : Project * Completion :=
  removeGraphQLDocumentsFor uri p.

Fixpoint scanLoop (files : list string) (p : @Project GraphQLDocument)
    : Project * list DocumentUri :=
  match files with
  | [] => (p, [])
  | filePath :: rest =>
      let uri := fileUri world filePath in
      match documentsByFile p !! uri with
      | Some _ => scanLoop rest p
      | None =>
          let '(p', calls) := scanLoop rest (fileDidChange uri p) in
          (p', uri :: calls)
      end
  end.

(** The message is the first argument of [loadingHandler.handle]: when
    the getter throws, the loop does not start. *)
Definition scanAllIncludedFiles (p : @Project GraphQLDocument)
    : Project * Completion :=
  match getDisplayName collaborators with
  | inl error => (p, Throw error)
  | inr name =>
      (emit (LoadingHandle ("Loading queries for " +:+ name))
            (scanLoop (allFiles world) p).1,
       Normal)
  end.

Definition initializeErrorMessage (name text : string) : string :=
  "Error initializing Apollo GraphQL project " +:+ quote
  +:+ name +:+ quote +:+ ": " +:+ text.

(** The [catch] callback: [console.error(error)], then the template
    string, left to right, then [showError]. *)
Definition onInitializeError (error : Error) (p : @Project GraphQLDocument)
    : Project * Completion :=
  let p := emit (ConsoleError error) p in
  match getDisplayName collaborators with
  | inl thrown => (p, Throw thrown)
  | inr name =>
      match stringOfError collaborators error with
      | inl thrown => (p, Throw thrown)
      | inr text =>
          (emit (LoadingShowError (initializeErrorMessage name text)) p,
           showError collaborators (initializeErrorMessage name text))
      end
  end.

Definition initSettled (subtasks : list Settled)
    (p : @Project GraphQLDocument) : Project :=
  match readyPromise p with
  | Pending =>
      let '(p1, s1) := then_ onInitialized (Promise_all subtasks) p in
      let '(p2, s2) := catch_ onInitializeError s1 p1 in
      set_readyPromise (settle s2) p2
  | _ => p
  end.

(** An event, with how the call completes for the caller of the method;
    the promise continuation and the timer callback have no caller. *)
Definition step (ev : Event) (p : @Project GraphQLDocument)
    : Project * Completion :=
  match ev with
  | InitSettled subtasks => (initSettled subtasks p, Normal)
  | TimerFired => (runTimer self p, Normal)
  | CallOnDiagnostics handler => (onDiagnostics handler p, Normal)
  | CallFileDidChange uri => (fileDidChange uri p, Normal)
  | CallFileWasDeleted uri => fileWasDeleted uri p
  | CallDocumentDidChange document => documentDidChange document p
  | CallScanAllIncludedFiles => scanAllIncludedFiles p
  | CallInvalidate => (invalidate p, Normal)
  end.

(** The project lives on after a call that threw. *)
Fixpoint run (evs : list Event) (p : @Project GraphQLDocument) : Project :=
  match evs with
  | [] => p
  | ev :: rest => run rest (step ev p).1
  end.

End Throwing.

End Throwing.

(** Sample collaborators: all return; the diagnostics handler throws; the
    loading handler throws. *)
Module SampleCollaborators.

Definition returning : Collaborators :=
  mkCollaborators (fun _ _ => Normal) (inr "sample") (fun error => inr error)
                  (fun _ => Normal).

Definition throwingHandler : Collaborators :=
  mkCollaborators (fun _ _ => Throw "handler failed") (inr "sample")
                  (fun error => inr error) (fun _ => Normal).

Definition throwingLoadingHandler : Collaborators :=
  mkCollaborators (fun _ _ => Normal) (inr "sample") (fun error => inr error)
                  (fun _ => Throw "connection closed").

End SampleCollaborators.

(** * Properties *)

Section Scheduler.

Context {GraphQLDocument : Type}.
Variable self : @Subclass GraphQLDocument.
Implicit Types p : @Project GraphQLDocument.

Lemma countValidate_app (es es' : list Effect) :
  countValidate (es ++ es') = countValidate es + countValidate es'.
Proof.
  induction es as [|e es IH]; simpl; [done|]. rewrite IH. lia.
Qed.

Lemma validations_emit e p :
  validations (emit e p) = validations p + (if isValidate e then 1 else 0).
Proof.
  unfold validations. simpl. rewrite countValidate_app. simpl. lia.
Qed.

Lemma invalidate_not_ready p : isReady p = false -> invalidate p = p.
Proof.
  intros Hready. unfold invalidate. by rewrite Hready, andb_false_r.
Qed.

Lemma invalidate_pending p : needsValidation p = true -> invalidate p = p.
Proof.
  intros Hflag. unfold invalidate. by rewrite Hflag.
Qed.

Lemma invalidate_idle p :
  needsValidation p = false -> isReady p = true ->
  invalidate p = set_needsValidation true (setTimeout CallValidateIfNeeded p).
Proof.
  intros Hflag Hready. unfold invalidate. by rewrite Hflag, Hready.
Qed.

Lemma invalidate_idempotent p : invalidate (invalidate p) = invalidate p.
Proof.
  destruct (needsValidation p) eqn:Hflag.
  - rewrite (invalidate_pending p Hflag). by apply invalidate_pending.
  - destruct (isReady p) eqn:Hready.
    + rewrite (invalidate_idle p) by done. by apply invalidate_pending.
    + rewrite (invalidate_not_ready p Hready). by apply invalidate_not_ready.
Qed.

Lemma burst_S n p : burst (S n) p = invalidate p.
Proof.
  revert p. induction n as [|n IH]; intros p; [done|].
  change (burst (S (S n)) p) with (burst (S n) (invalidate p)).
  rewrite IH. apply invalidate_idempotent.
Qed.

Lemma isReady_invalidate p : isReady (invalidate p) = isReady p.
Proof. unfold invalidate. by destruct (_ && _). Qed.

Lemma effects_invalidate p : effects (invalidate p) = effects p.
Proof. unfold invalidate. by destruct (_ && _). Qed.

Lemma documentsByFile_invalidate p :
  documentsByFile (invalidate p) = documentsByFile p.
Proof. unfold invalidate. by destruct (_ && _). Qed.

Lemma readyPromise_invalidate p : readyPromise (invalidate p) = readyPromise p.
Proof. unfold invalidate. by destruct (_ && _). Qed.

Lemma onDiagnostics_invalidate p :
  _onDiagnostics (invalidate p) = _onDiagnostics p.
Proof. unfold invalidate. by destruct (_ && _). Qed.

Lemma invalidate_consistent p :
  schedulerConsistent p -> schedulerConsistent (invalidate p).
Proof.
  intros Hcons.
  destruct (needsValidation p) eqn:E.
  { by rewrite invalidate_pending. }
  destruct (isReady p) eqn:R.
  - rewrite invalidate_idle by done.
    destruct Hcons as [Htimers _]. rewrite E in Htimers.
    split; simpl; [by rewrite Htimers|done].
  - by rewrite invalidate_not_ready.
Qed.

(** A ready project with the flag set and its one callback queued: the
    timer phase calls [validate] once and leaves the queue empty, whether
    the hook returns or throws. *)
Lemma drainTimers_pending p :
  isReady p = true -> needsValidation p = true ->
  timers p = [CallValidateIfNeeded] ->
  validations (drainTimers self p) = validations p + 1
  /\ timers (drainTimers self p) = [].
Proof.
  intros Hready Hflag Htimers.
  unfold drainTimers. rewrite Htimers. simpl.
  unfold runTimer. rewrite Htimers. simpl.
  unfold validateIfNeeded. simpl. fold (isReady p).
  rewrite Hflag, Hready. simpl.
  destruct (validate self _); simpl.
  - split; [|done]. unfold validations. simpl.
    rewrite countValidate_app. simpl. lia.
  - split; [|done]. unfold validations. simpl.
    rewrite !countValidate_app. simpl. lia.
Qed.

Lemma drainTimers_ready p :
  schedulerConsistent p -> isReady p = true ->
  validations (drainTimers self (invalidate p)) = validations p + 1
  /\ timers (drainTimers self (invalidate p)) = [].
Proof.
  intros Hcons Hready.
  pose proof (invalidate_consistent p Hcons) as [Htimers _].
  assert (needsValidation (invalidate p) = true) as Hflag.
  { unfold invalidate. destruct (needsValidation p) eqn:E; simpl; [done|].
    by rewrite Hready. }
  rewrite Hflag in Htimers.
  destruct (drainTimers_pending (invalidate p)) as [Hcount Hqueue];
    [by rewrite isReady_invalidate|done|done|].
  split; [|done]. rewrite Hcount. unfold validations.
  by rewrite effects_invalidate.
Qed.

End Scheduler.

Section Properties.

Context {GraphQLDocument : Type}.
Variable world : @World GraphQLDocument.
Variable self : @Subclass GraphQLDocument.
Implicit Types p q : @Project GraphQLDocument.

(** ** The continuation of [readyPromise] *)

Lemma initSettled_resolved subtasks p :
  readyPromise p = Pending -> Promise_all subtasks = Resolved ->
  initSettled self subtasks p
  = set_readyPromise Fulfilled (invalidate (set_isReady true p)).
Proof.
  intros Hpending Hall. unfold initSettled. by rewrite Hpending, Hall.
Qed.

Lemma initSettled_rejected subtasks error p :
  readyPromise p = Pending -> Promise_all subtasks = RejectedWith error ->
  initSettled self subtasks p
  = set_readyPromise Fulfilled (onInitializeError self error p).1.
Proof.
  intros Hpending Hall. unfold initSettled. by rewrite Hpending, Hall.
Qed.

Lemma initSettled_settled subtasks p :
  readyPromise p <> Pending -> initSettled self subtasks p = p.
Proof.
  intros Hsettled. unfold initSettled. by destruct (readyPromise p).
Qed.

(** ** Effects only grow *)

Lemma effects_removeGraphQLDocumentsFor uri p :
  effects p `prefix_of` effects (removeGraphQLDocumentsFor uri p).
Proof.
  unfold removeGraphQLDocumentsFor.
  destruct (documentsByFile p !! uri); [|done].
  rewrite effects_invalidate. simpl.
  destruct (_onDiagnostics p); simpl; [by apply prefix_app_r|done].
Qed.

Lemma effects_documentDidChange document p :
  effects p `prefix_of` effects (documentDidChange world document p).
Proof.
  unfold documentDidChange. destruct (extractGraphQLDocuments _ _).
  - by rewrite effects_invalidate.
  - apply effects_removeGraphQLDocumentsFor.
Qed.

Lemma effects_fileDidChange uri p :
  effects p `prefix_of` effects (fileDidChange world uri p).
Proof.
  unfold fileDidChange. destruct (fileAssociations !! _); [|done].
  destruct (readFileSync _ _).
  - simpl. by apply prefix_app_r.
  - apply effects_documentDidChange.
Qed.

Lemma effects_scanLoop files p :
  effects p `prefix_of` effects (scanLoop world files p).1.
Proof.
  revert p. induction files as [|filePath files IH]; intros p; simpl; [done|].
  destruct (documentsByFile p !! _); [apply IH|].
  specialize (IH (fileDidChange world (fileUri world filePath) p)).
  destruct (scanLoop _ _ _) as [p' calls]. simpl in *.
  etrans; [apply effects_fileDidChange|done].
Qed.

Lemma effects_runTimer p :
  effects p `prefix_of` effects (runTimer self p).
Proof.
  unfold runTimer. destruct (timers p) as [|[] rest]; [done|]. simpl.
  unfold validateIfNeeded. simpl.
  destruct (negb (needsValidation p) || negb (_isReady p)); simpl; [done|].
  destruct (validate self _); simpl.
  - by apply prefix_app_r.
  - rewrite <- (assoc_L (++)). by apply prefix_app_r.
Qed.

Lemma effects_initSettled subtasks p :
  effects p `prefix_of` effects (initSettled self subtasks p).
Proof.
  unfold initSettled. destruct (readyPromise p); [|done..].
  destruct (Promise_all subtasks); simpl.
  - by rewrite effects_invalidate.
  - rewrite <- (assoc_L (++)). by apply prefix_app_r.
Qed.

Lemma effects_step ev p :
  effects p `prefix_of` effects (step world self ev p).
Proof.
  destruct ev; simpl.
  - apply effects_initSettled.
  - apply effects_runTimer.
  - done.
  - apply effects_fileDidChange.
  - apply effects_removeGraphQLDocumentsFor.
  - apply effects_documentDidChange.
  - etrans; [apply (effects_scanLoop (allFiles world))|].
    by apply prefix_app_r.
  - by rewrite effects_invalidate.
Qed.

Lemma effects_run evs p :
  effects p `prefix_of` effects (run world self evs p).
Proof.
  revert p. induction evs as [|ev evs IH]; intros p; simpl; [done|].
  etrans; [apply (effects_step ev)|apply IH].
Qed.

Lemma hasThrown_prefix p q :
  effects p `prefix_of` effects q -> hasThrown p = true -> hasThrown q = true.
Proof.
  intros [k Hk] Hthrown. unfold hasThrown in *.
  by rewrite Hk, existsb_app, Hthrown.
Qed.

(** ** The scheduler invariant *)

Lemma schedulerConsistent_same p q :
  sameScheduler p q -> schedulerConsistent p -> schedulerConsistent q.
Proof.
  intros (Ht & Hf & Hr) [Htimers Hflag]. split.
  - by rewrite Ht, Hf.
  - rewrite Hf, Hr. done.
Qed.

Lemma consistent_removeGraphQLDocumentsFor uri p :
  schedulerConsistent p -> schedulerConsistent (removeGraphQLDocumentsFor uri p).
Proof.
  intros Hcons. unfold removeGraphQLDocumentsFor.
  destruct (documentsByFile p !! uri); [|done].
  apply invalidate_consistent. revert Hcons. apply schedulerConsistent_same.
  simpl. by destruct (_onDiagnostics p).
Qed.

Lemma consistent_documentDidChange document p :
  schedulerConsistent p -> schedulerConsistent (documentDidChange world document p).
Proof.
  intros Hcons. unfold documentDidChange.
  destruct (extractGraphQLDocuments _ _).
  - apply invalidate_consistent. revert Hcons. by apply schedulerConsistent_same.
  - by apply consistent_removeGraphQLDocumentsFor.
Qed.

Lemma consistent_fileDidChange uri p :
  schedulerConsistent p -> schedulerConsistent (fileDidChange world uri p).
Proof.
  intros Hcons. unfold fileDidChange.
  destruct (fileAssociations !! _); [|done].
  destruct (readFileSync _ _).
  - revert Hcons. by apply schedulerConsistent_same.
  - by apply consistent_documentDidChange.
Qed.

Lemma consistent_scanLoop files p :
  schedulerConsistent p -> schedulerConsistent (scanLoop world files p).1.
Proof.
  revert p. induction files as [|filePath files IH]; intros p Hcons; simpl; [done|].
  destruct (documentsByFile p !! _); [by apply IH|].
  specialize (IH (fileDidChange world (fileUri world filePath) p)
                 (consistent_fileDidChange _ _ Hcons)).
  by destruct (scanLoop _ _ _).
Qed.

Lemma consistent_initSettled subtasks p :
  schedulerConsistent p -> schedulerConsistent (initSettled self subtasks p).
Proof.
  intros Hcons. unfold initSettled. destruct (readyPromise p); [|done..].
  destruct (Promise_all subtasks); simpl.
  - apply (schedulerConsistent_same (invalidate (set_isReady true p))); [done|].
    apply invalidate_consistent. destruct Hcons as [Htimers Hflag].
    by split.
  - revert Hcons. by apply schedulerConsistent_same.
Qed.

(** A timer turn keeps the scheduler consistent unless [validate] throws,
    and then the exception shows among the effects. *)
Lemma consistent_runTimer p :
  schedulerConsistent p ->
  schedulerConsistent (runTimer self p) \/ hasThrown (runTimer self p) = true.
Proof.
  intros [Htimers Hflag]. unfold runTimer.
  destruct (needsValidation p) eqn:Eflag.
  - rewrite Htimers. simpl. unfold validateIfNeeded. simpl.
    fold (isReady p). rewrite Eflag, (Hflag eq_refl). simpl.
    destruct (validate self _) as [|error]; simpl.
    + left. by split.
    + right. unfold hasThrown. simpl. rewrite !existsb_app. simpl.
      by rewrite orb_true_r.
  - rewrite Htimers. left. split; [by rewrite Eflag|congruence].
Qed.

Lemma consistent_step ev p :
  schedulerConsistent p ->
  schedulerConsistent (step world self ev p)
  \/ hasThrown (step world self ev p) = true.
Proof.
  intros Hcons. destruct ev; simpl.
  - left. by apply consistent_initSettled.
  - by apply consistent_runTimer.
  - left. revert Hcons. by apply schedulerConsistent_same.
  - left. by apply consistent_fileDidChange.
  - left. by apply consistent_removeGraphQLDocumentsFor.
  - left. by apply consistent_documentDidChange.
  - left. apply (schedulerConsistent_same (scanLoop world (allFiles world) p).1);
      [done|]. by apply consistent_scanLoop.
  - left. by apply invalidate_consistent.
Qed.

Lemma consistent_run evs p :
  schedulerConsistent p ->
  schedulerConsistent (run world self evs p)
  \/ hasThrown (run world self evs p) = true.
Proof.
  revert p. induction evs as [|ev evs IH]; intros p Hcons; simpl; [by left|].
  destruct (consistent_step ev p Hcons) as [Hstep|Hthrown].
  - by apply IH.
  - right. revert Hthrown. apply hasThrown_prefix, effects_run.
Qed.

(** In every state the project can reach, the scheduler is consistent as
    long as no call of [validate] has thrown. *)
Lemma consistent_reachable evs :
  hasThrown (run world self evs construct) = false ->
  schedulerConsistent (run world self evs construct).
Proof.
  intros Hquiet.
  destruct (consistent_run evs construct) as [Hcons|Hthrown]; [|done|].
  - by split.
  - congruence.
Qed.

(** ** Readiness and the promise *)

Lemma lifecycleFrame_refl p : lifecycleFrame p p.
Proof. by repeat split. Qed.

Lemma lifecycleFrame_trans p q r :
  lifecycleFrame p q -> lifecycleFrame q r -> lifecycleFrame p r.
Proof.
  intros (Hr1 & Hp1 & Hs1) (Hr2 & Hp2 & Hs2). split; [|split].
  - by rewrite Hr2.
  - by rewrite Hp2.
  - intros Hready. destruct (Hs1 Hready) as [Hf1 Ht1].
    rewrite <- Hr1 in Hready. destruct (Hs2 Hready) as [Hf2 Ht2].
    split; congruence.
Qed.

Lemma frame_invalidate p : lifecycleFrame p (invalidate p).
Proof.
  split; [|split].
  - apply isReady_invalidate.
  - apply readyPromise_invalidate.
  - intros Hready. by rewrite invalidate_not_ready.
Qed.

Lemma frame_removeGraphQLDocumentsFor uri p :
  lifecycleFrame p (removeGraphQLDocumentsFor uri p).
Proof.
  unfold removeGraphQLDocumentsFor.
  destruct (documentsByFile p !! uri); [|apply lifecycleFrame_refl].
  eapply lifecycleFrame_trans; [|apply frame_invalidate].
  simpl. destruct (_onDiagnostics p); by repeat split.
Qed.

Lemma frame_documentDidChange document p :
  lifecycleFrame p (documentDidChange world document p).
Proof.
  unfold documentDidChange. destruct (extractGraphQLDocuments _ _).
  - eapply lifecycleFrame_trans; [|apply frame_invalidate]. by repeat split.
  - apply frame_removeGraphQLDocumentsFor.
Qed.

Lemma frame_fileDidChange uri p :
  lifecycleFrame p (fileDidChange world uri p).
Proof.
  unfold fileDidChange.
  destruct (fileAssociations !! _); [|apply lifecycleFrame_refl].
  destruct (readFileSync _ _); [by repeat split|].
  apply frame_documentDidChange.
Qed.

Lemma frame_scanLoop files p :
  lifecycleFrame p (scanLoop world files p).1.
Proof.
  revert p. induction files as [|filePath files IH]; intros p; simpl.
  { apply lifecycleFrame_refl. }
  destruct (documentsByFile p !! _); [apply IH|].
  specialize (IH (fileDidChange world (fileUri world filePath) p)).
  destruct (scanLoop _ _ _) as [p' calls]. simpl in *.
  eapply lifecycleFrame_trans; [apply frame_fileDidChange|done].
Qed.

Lemma frame_scanAllIncludedFiles p :
  lifecycleFrame p (scanAllIncludedFiles world self p).
Proof.
  eapply lifecycleFrame_trans; [apply (frame_scanLoop (allFiles world))|].
  by repeat split.
Qed.

Lemma isReady_runTimer p : isReady (runTimer self p) = isReady p.
Proof.
  unfold runTimer. destruct (timers p) as [|[] rest]; [done|]. simpl.
  unfold validateIfNeeded. simpl.
  destruct (negb (needsValidation p) || negb (_isReady p)); simpl; [done|].
  by destruct (validate self _).
Qed.

Lemma readyPromise_runTimer p : readyPromise (runTimer self p) = readyPromise p.
Proof.
  unfold runTimer. destruct (timers p) as [|[] rest]; [done|]. simpl.
  unfold validateIfNeeded. simpl.
  destruct (negb (needsValidation p) || negb (_isReady p)); simpl; [done|].
  by destruct (validate self _).
Qed.

(** Only the settlement of the initialization changes readiness or the
    promise, and only once. *)
Lemma lifecycle_step ev p :
  (isReady (step world self ev p) = isReady p
   /\ readyPromise (step world self ev p) = readyPromise p)
  \/ (exists subtasks, ev = InitSettled subtasks)
     /\ readyPromise p = Pending.
Proof.
  destruct ev; simpl.
  - destruct (readyPromise p) eqn:Hpromise.
    + right. eauto.
    + left. by rewrite initSettled_settled by congruence.
    + left. by rewrite initSettled_settled by congruence.
  - left. by rewrite isReady_runTimer, readyPromise_runTimer.
  - by left.
  - left. by destruct (frame_fileDidChange uri p) as (? & ? & _).
  - left. by destruct (frame_removeGraphQLDocumentsFor uri p) as (? & ? & _).
  - left. by destruct (frame_documentDidChange document p) as (? & ? & _).
  - left. by destruct (frame_scanAllIncludedFiles p) as (? & ? & _).
  - left. by destruct (frame_invalidate p) as (? & ? & _).
Qed.

Lemma Promise_all_resolved subtasks :
  Promise_all subtasks = Resolved <-> Forall (fun s => s = Resolved) subtasks.
Proof.
  induction subtasks as [|[|error] rest IH]; simpl.
  - split; [by constructor|done].
  - rewrite IH. split; [by constructor|by inversion 1].
  - split; [done|]. by inversion 1.
Qed.

Lemma Promise_all_rejected subtasks :
  (exists error, RejectedWith error ∈ subtasks) ->
  exists error,
    RejectedWith error ∈ subtasks /\ Promise_all subtasks = RejectedWith error.
Proof.
  induction subtasks as [|[|error] rest IH]; intros [error' Hin]; simpl.
  - by apply elem_of_nil in Hin.
  - apply elem_of_cons in Hin as [Hin|Hin]; [done|].
    destruct IH as (e & He & Hall); [eauto|].
    exists e. split; [by right|done].
  - exists error. split; [by left|done].
Qed.

Lemma isReady_initSettled subtasks p :
  isReady p = true -> isReady (initSettled self subtasks p) = true.
Proof.
  intros Hready. unfold initSettled. destruct (readyPromise p); [|done..].
  destruct (Promise_all subtasks); simpl; [|done].
  by rewrite isReady_invalidate.
Qed.

Lemma isReady_step_true ev p :
  isReady p = true -> isReady (step world self ev p) = true.
Proof.
  intros Hready.
  destruct (lifecycle_step ev p) as [[-> _]|[[subtasks ->] _]]; [done|].
  by apply isReady_initSettled.
Qed.


(** Once the promise has settled, readiness no longer changes. *)
Lemma lifecycle_run_settled evs p :
  readyPromise p <> Pending ->
  isReady (run world self evs p) = isReady p
  /\ readyPromise (run world self evs p) = readyPromise p.
Proof.
  revert p. induction evs as [|ev evs IH]; intros p Hsettled; simpl; [done|].
  destruct (lifecycle_step ev p) as [[Hr Hp]|[_ Hpending]]; [|done].
  rewrite <- Hr, <- Hp. apply IH. by rewrite Hp.
Qed.

Lemma lifecycleInvariant_step ev p :
  lifecycleInvariant p -> lifecycleInvariant (step world self ev p).
Proof.
  intros Hinv. pose proof Hinv as (Hpending & Hrejected & Hquiet).
  assert (forall q, lifecycleFrame p q -> lifecycleInvariant q) as Hframe.
  { intros q (Hr & Hp & Hs). split; [|split].
    - rewrite Hr, Hp. apply Hpending.
    - rewrite Hp. apply Hrejected.
    - rewrite Hr. intros Hready. destruct (Hs Hready) as [-> ->].
      by apply Hquiet. }
  destruct ev; simpl.
  - unfold initSettled. destruct (readyPromise p) eqn:Hpromise; [|done..].
    destruct (Promise_all subtasks); simpl.
    + split; [done|]. split; [done|].
      intros Hready. exfalso. revert Hready.
      change (isReady (invalidate (set_isReady true p)) <> false).
      by rewrite isReady_invalidate.
    + split; [done|]. split; [done|]. apply Hquiet.
  - unfold lifecycleInvariant.
    rewrite isReady_runTimer, readyPromise_runTimer.
    split; [done|]. split; [done|].
    intros Hready. destruct (Hquiet Hready) as [Hflag Htimers].
    unfold runTimer. by rewrite Htimers.
  - apply Hframe. by repeat split.
  - apply Hframe, frame_fileDidChange.
  - apply Hframe, frame_removeGraphQLDocumentsFor.
  - apply Hframe, frame_documentDidChange.
  - apply Hframe, frame_scanAllIncludedFiles.
  - apply Hframe, frame_invalidate.
Qed.

Lemma lifecycleInvariant_run evs p :
  lifecycleInvariant p -> lifecycleInvariant (run world self evs p).
Proof.
  revert p. induction evs as [|ev evs IH]; intros p Hinv; simpl; [done|].
  by apply IH, lifecycleInvariant_step.
Qed.

Lemma lifecycleInvariant_reachable evs :
  lifecycleInvariant (run world self evs construct).
Proof.
  apply lifecycleInvariant_run. by repeat split.
Qed.

Local Abbreviation reached evs := (run world self evs construct).


(** What a failed initialization leaves behind, whatever happens next. *)
Lemma initSettled_failure evs subtasks evs' error :
  readyPromise (reached evs) = Pending ->
  Promise_all subtasks = RejectedWith error ->
  let q := run world self evs' (initSettled self subtasks (reached evs)) in
  readyPromise q = Fulfilled /\ isReady q = false
  /\ ConsoleError error ∈ effects q
  /\ LoadingShowError (initializeErrorMessage self error) ∈ effects q.
Proof.
  intros Hpending Hall q.
  destruct (lifecycleInvariant_reachable evs) as (Hnotready & _ & _).
  pose proof (initSettled_rejected subtasks error _ Hpending Hall) as Hq0.
  destruct (lifecycle_run_settled evs' (initSettled self subtasks (reached evs)))
    as [Hready Hpromise].
  { by rewrite Hq0. }
  subst q. rewrite Hready, Hpromise, Hq0. simpl.
  split; [done|]. split; [by apply Hnotready|].
  split.
  - eapply elem_of_prefix; [|apply effects_run]. simpl. set_solver.
  - eapply elem_of_prefix; [|apply effects_run]. simpl. set_solver.
Qed.

Lemma burst_not_ready n p : isReady p = false -> burst n p = p.
Proof.
  intros Hready. induction n as [|n IH]; simpl; [done|].
  by rewrite invalidate_not_ready.
Qed.

Lemma burst_pending n p : needsValidation p = true -> burst n p = p.
Proof.
  intros Hflag. induction n as [|n IH]; simpl; [done|].
  by rewrite invalidate_pending.
Qed.

(** ** The revalidation scheduler *)

(** C1, amended.  Take any state the project can reach in which no call of
    [validate] has thrown, and let [invalidate] be called [n >= 1] times in
    a row.  If the project is ready, the timer phase that follows calls
    [validate] exactly once and leaves no callback queued.  If the
    initialization is still pending, the calls cause no validation; when the
    initialization then resolves, the project becomes ready and, with any
    number [m] of further calls before the timer phase, [validate] is
    called exactly once. *)
Theorem invalidate_burst_validates_once evs n :
  1 <= n ->
  hasThrown (reached evs) = false ->
  (isReady (reached evs) = true ->
   validations (drainTimers self (burst n (reached evs)))
   = validations (reached evs) + 1
   /\ timers (drainTimers self (burst n (reached evs))) = [])
  /\ (readyPromise (reached evs) = Pending ->
      isReady (reached evs) = false
      /\ validations (drainTimers self (burst n (reached evs)))
         = validations (reached evs)
      /\ forall subtasks m,
           Promise_all subtasks = Resolved ->
           isReady (initSettled self subtasks (burst n (reached evs))) = true
           /\ validations
                (drainTimers self
                   (burst m (initSettled self subtasks (burst n (reached evs)))))
              = validations (reached evs) + 1).
Proof.
  intros Hn Hquiet.
  pose proof (consistent_reachable evs Hquiet) as Hcons.
  destruct (lifecycleInvariant_reachable evs) as (Hnotready & _ & Hidle).
  set (p := reached evs) in *. split.
  - intros Hready. destruct n as [|n]; [lia|].
    rewrite burst_S. by apply drainTimers_ready.
  - intros Hpending. specialize (Hnotready Hpending).
    destruct (Hidle Hnotready) as [Hflag Htimers].
    rewrite (burst_not_ready n p Hnotready).
    split; [done|]. split.
    { unfold drainTimers. by rewrite Htimers. }
    intros subtasks m Hall.
    rewrite (initSettled_resolved subtasks p Hpending Hall).
    set (q := set_readyPromise Fulfilled (invalidate (set_isReady true p))).
    assert (isReady q = true) as Hready.
    { unfold q. change (isReady (invalidate (set_isReady true p)) = true).
      by rewrite isReady_invalidate. }
    assert (needsValidation q = true /\ timers q = [CallValidateIfNeeded]
            /\ validations q = validations p) as (Hq1 & Hq2 & Hq3).
    { unfold q, invalidate, validations. simpl. rewrite Hflag. simpl.
      by rewrite Htimers. }
    split; [done|].
    rewrite (burst_pending m q Hq1).
    destruct (drainTimers_pending self q Hready Hq1 Hq2) as [Hcount _].
    by rewrite Hcount, Hq3.
Qed.

(** C3, amended.  A call of [invalidate] while the project is not ready
    changes nothing: the pending flag is not set and nothing is scheduled.
    In every reachable state that is not ready the flag is false and the
    timer queue is empty, and they remain so after the call. *)
Theorem invalidate_before_ready_changes_nothing evs p :
  isReady p = false ->
  invalidate p = p
  /\ (p = reached evs ->
      needsValidation (invalidate p) = false /\ timers (invalidate p) = []).
Proof.
  intros Hready. rewrite (invalidate_not_ready p Hready).
  split; [done|]. intros ->.
  destruct (lifecycleInvariant_reachable evs) as (_ & _ & Hidle).
  by apply Hidle.
Qed.

(** What a throwing [validate] leaves behind: the flag stays set, no
    callback is queued, and later calls of [invalidate] return at once. *)
Lemma runTimer_throw p error :
  timers p = [CallValidateIfNeeded] ->
  needsValidation p = true -> isReady p = true ->
  validate self (set_timers [] p) = Throw error ->
  needsValidation (runTimer self p) = true
  /\ timers (runTimer self p) = []
  /\ invalidate (runTimer self p) = runTimer self p.
Proof.
  intros Htimers Hflag Hready Hthrow.
  assert (needsValidation (runTimer self p) = true
          /\ timers (runTimer self p) = []) as [H1 H2].
  { unfold runTimer. rewrite Htimers. simpl. unfold validateIfNeeded. simpl.
    fold (isReady p). rewrite Hflag, Hready. simpl.
    by rewrite Hthrow. }
  by rewrite (invalidate_pending _ H1).
Qed.

(** C4, amended.  When the timer turn runs [validateIfNeeded] with the
    pending flag set and the project ready, and [validate] returns, then
    [validate] has been called once and the flag is cleared. *)
Theorem runTimer_clears_flag_when_validate_returns p rest :
  timers p = CallValidateIfNeeded :: rest ->
  needsValidation p = true ->
  isReady p = true ->
  validate self (set_timers rest p) = Normal ->
  needsValidation (runTimer self p) = false
  /\ validations (runTimer self p) = validations p + 1
  /\ timers (runTimer self p) = rest.
Proof.
  intros Htimers Hflag Hready Hreturn.
  unfold runTimer. rewrite Htimers. simpl. unfold validateIfNeeded. simpl.
  fold (isReady p). rewrite Hflag, Hready. simpl. rewrite Hreturn. simpl.
  split; [done|]. split; [|done].
  unfold validations. simpl. rewrite countValidate_app. simpl. lia.
Qed.

(** ** Readiness *)


End Properties.

Section DocumentIndex.

Context {GraphQLDocument : Type}.
Variable world : @World GraphQLDocument.
Variable self : @Subclass GraphQLDocument.
Implicit Types p q : @Project GraphQLDocument.

Local Abbreviation reached evs := (run world self evs construct).

Lemma fileAssociations_None extension :
  fileAssociations !! extension = None <-> extension ∉ supportedExtensions.
Proof.
  unfold fileAssociations. by rewrite <- not_elem_of_list_to_map.
Qed.

Lemma fileAssociations_Some extension :
  is_Some (fileAssociations !! extension) <-> extension ∈ supportedExtensions.
Proof.
  destruct (decide (extension ∈ supportedExtensions)) as [Hin|Hnotin].
  - split; [done|]. intros _.
    destruct (fileAssociations !! extension) eqn:Hlookup; [done|].
    by apply fileAssociations_None in Hlookup.
  - split; [|done]. intros [languageId Hlookup].
    apply fileAssociations_None in Hnotin. congruence.
Qed.

(** ** Entries of the index *)

Lemma indexNonEmpty_same p q :
  documentsByFile q = documentsByFile p -> indexNonEmpty p -> indexNonEmpty q.
Proof.
  intros Hsame Hp uri documents. rewrite Hsame. apply Hp.
Qed.

Lemma indexNonEmpty_removeGraphQLDocumentsFor uri p :
  indexNonEmpty p -> indexNonEmpty (removeGraphQLDocumentsFor uri p).
Proof.
  intros Hp. unfold removeGraphQLDocumentsFor.
  destruct (documentsByFile p !! uri) eqn:Hlookup; [|done].
  intros uri' documents. rewrite documentsByFile_invalidate. simpl.
  assert (documentsByFile
            match _onDiagnostics p with
            | Some handler =>
                emit (PublishDiagnostics handler uri)
                     (set_documentsByFile (delete uri (documentsByFile p)) p)
            | None => set_documentsByFile (delete uri (documentsByFile p)) p
            end = delete uri (documentsByFile p)) as ->.
  { by destruct (_onDiagnostics p). }
  rewrite lookup_delete_Some. intros [_ Hsome]. by apply (Hp uri').
Qed.

Lemma indexNonEmpty_documentDidChange document p :
  extractsNonEmpty world ->
  indexNonEmpty p -> indexNonEmpty (documentDidChange world document p).
Proof.
  intros Hextract Hp. unfold documentDidChange.
  destruct (extractGraphQLDocuments world document) as [documents|] eqn:Hdocs.
  - intros uri' documents'. rewrite documentsByFile_invalidate. simpl.
    rewrite lookup_insert_Some. intros [[_ <-]|[_ Hsome]].
    + by apply (Hextract document).
    + by apply (Hp uri').
  - by apply indexNonEmpty_removeGraphQLDocumentsFor.
Qed.

Lemma indexNonEmpty_fileDidChange uri p :
  extractsNonEmpty world ->
  indexNonEmpty p -> indexNonEmpty (fileDidChange world uri p).
Proof.
  intros Hextract Hp. unfold fileDidChange.
  destruct (fileAssociations !! _); [|done].
  destruct (readFileSync _ _); [done|].
  by apply indexNonEmpty_documentDidChange.
Qed.

Lemma indexNonEmpty_scanLoop files p :
  extractsNonEmpty world ->
  indexNonEmpty p -> indexNonEmpty (scanLoop world files p).1.
Proof.
  intros Hextract. revert p.
  induction files as [|filePath files IH]; intros p Hp; simpl; [done|].
  destruct (documentsByFile p !! _); [by apply IH|].
  specialize (IH (fileDidChange world (fileUri world filePath) p)
                 (indexNonEmpty_fileDidChange _ _ Hextract Hp)).
  by destruct (scanLoop _ _ _).
Qed.

Lemma documentsByFile_runTimer p :
  documentsByFile (runTimer self p) = documentsByFile p.
Proof.
  unfold runTimer. destruct (timers p) as [|[] rest]; [done|]. simpl.
  unfold validateIfNeeded. simpl.
  destruct (negb (needsValidation p) || negb (_isReady p)); simpl; [done|].
  by destruct (validate self _).
Qed.

Lemma documentsByFile_initSettled subtasks p :
  documentsByFile (initSettled self subtasks p) = documentsByFile p.
Proof.
  unfold initSettled. destruct (readyPromise p); [|done..].
  destruct (Promise_all subtasks); simpl; [|done].
  by rewrite documentsByFile_invalidate.
Qed.

Lemma indexNonEmpty_step ev p :
  extractsNonEmpty world ->
  indexNonEmpty p -> indexNonEmpty (step world self ev p).
Proof.
  intros Hextract Hp. destruct ev; simpl.
  - revert Hp. apply indexNonEmpty_same, documentsByFile_initSettled.
  - revert Hp. apply indexNonEmpty_same, documentsByFile_runTimer.
  - done.
  - by apply indexNonEmpty_fileDidChange.
  - by apply indexNonEmpty_removeGraphQLDocumentsFor.
  - by apply indexNonEmpty_documentDidChange.
  - apply (indexNonEmpty_same (scanLoop world (allFiles world) p).1); [done|].
    by apply indexNonEmpty_scanLoop.
  - revert Hp. apply indexNonEmpty_same, documentsByFile_invalidate.
Qed.

Lemma indexNonEmpty_run evs p :
  extractsNonEmpty world ->
  indexNonEmpty p -> indexNonEmpty (run world self evs p).
Proof.
  intros Hextract. revert p.
  induction evs as [|ev evs IH]; intros p Hp; simpl; [done|].
  by apply IH, indexNonEmpty_step.
Qed.

(** What [documentDidChange] leaves under the URI of the document: the
    array the extractor returned, or nothing when it returned [null]. *)
Lemma documentDidChange_lookup document p :
  documentsByFile (documentDidChange world document p)
    !! TextDocument.uri document
  = extractGraphQLDocuments world document.
Proof.
  unfold documentDidChange.
  destruct (extractGraphQLDocuments world document) as [documents|].
  - rewrite documentsByFile_invalidate. simpl. apply lookup_insert_eq.
  - unfold removeGraphQLDocumentsFor.
    destruct (documentsByFile p !! _) eqn:Hlookup; [|done].
    rewrite documentsByFile_invalidate. simpl.
    destruct (_onDiagnostics p); simpl; apply lookup_delete_eq.
Qed.

(** C2, amended.  Provided the extractor never returns an empty array,
    every file in the index of a reachable project has at least one
    document, also after [documentDidChange]; a [null] result of the
    extractor removes the key of the document, and any other result is
    stored under it (and is not empty). *)
Theorem documentsByFile_entries_non_empty evs document :
  extractsNonEmpty world ->
  indexNonEmpty (reached evs)
  /\ indexNonEmpty (documentDidChange world document (reached evs))
  /\ match extractGraphQLDocuments world document with
     | None =>
         documentsByFile (documentDidChange world document (reached evs))
           !! TextDocument.uri document = None
     | Some documents =>
         documentsByFile (documentDidChange world document (reached evs))
           !! TextDocument.uri document = Some documents
         /\ documents <> []
     end.
Proof.
  intros Hextract.
  assert (indexNonEmpty (reached evs)) as Hreached.
  { apply indexNonEmpty_run; [done|]. intros uri documents.
    simpl. by rewrite lookup_empty. }
  split; [done|]. split; [by apply indexNonEmpty_documentDidChange|].
  rewrite documentDidChange_lookup.
  destruct (extractGraphQLDocuments world document) as [documents|] eqn:Hdocs;
    [|done].
  split; [done|]. by apply (Hextract document).
Qed.

(** ** File events *)

(** C6.  [fileDidChange] on a file whose extension is not one of
    [.graphql], [.js], [.ts], [.jsx], [.tsx] returns the project as it is.
    When the extension is supported and reading the file throws, the error
    is logged on the console and nothing else changes: the index, the
    pending flag, the timer queue, readiness and the diagnostics handler
    are as before, and the call returns. *)
Theorem fileDidChange_unsupported_or_unreadable uri p :
  (extname world (fsPath world uri) ∉ supportedExtensions ->
   fileDidChange world uri p = p)
  /\ (forall error,
        extname world (fsPath world uri) ∈ supportedExtensions ->
        readFileSync world (fsPath world uri) = inl error ->
        fileDidChange world uri p = emit (ConsoleError error) p
        /\ effects (fileDidChange world uri p)
           = effects p ++ [ConsoleError error]
        /\ documentsByFile (fileDidChange world uri p) = documentsByFile p
        /\ needsValidation (fileDidChange world uri p) = needsValidation p
        /\ timers (fileDidChange world uri p) = timers p
        /\ isReady (fileDidChange world uri p) = isReady p
        /\ _onDiagnostics (fileDidChange world uri p) = _onDiagnostics p).
Proof.
  split.
  - intros Hunsupported. apply fileAssociations_None in Hunsupported.
    unfold fileDidChange. by rewrite Hunsupported.
  - intros error Hsupported Hread.
    apply fileAssociations_Some in Hsupported as [languageId Hlookup].
    assert (fileDidChange world uri p = emit (ConsoleError error) p) as ->.
    { unfold fileDidChange. by rewrite Hlookup, Hread. }
    by repeat split.
Qed.

(** C7.  [removeGraphQLDocumentsFor] (and so [fileWasDeleted]) on a URI
    without entry returns the project as it is: same index, no
    diagnostics published, nothing invalidated.  After a removal the URI
    has no entry, so removing twice is the same as removing once. *)
Theorem removeGraphQLDocumentsFor_absent_is_noop uri p :
  (documentsByFile p !! uri = None ->
   removeGraphQLDocumentsFor uri p = p /\ fileWasDeleted uri p = p)
  /\ documentsByFile (removeGraphQLDocumentsFor uri p) !! uri = None
  /\ removeGraphQLDocumentsFor uri (removeGraphQLDocumentsFor uri p)
     = removeGraphQLDocumentsFor uri p.
Proof.
  assert (forall q, documentsByFile q !! uri = None ->
                    removeGraphQLDocumentsFor uri q = q) as Habsent.
  { intros q Hnone. unfold removeGraphQLDocumentsFor. by rewrite Hnone. }
  assert (documentsByFile (removeGraphQLDocumentsFor uri p) !! uri = None)
    as Hremoved.
  { unfold removeGraphQLDocumentsFor.
    destruct (documentsByFile p !! uri) eqn:Hlookup; [|done].
    rewrite documentsByFile_invalidate. simpl.
    destruct (_onDiagnostics p); simpl; apply lookup_delete_eq. }
  split; [|split].
  - intros Hnone. unfold fileWasDeleted. by rewrite Habsent.
  - done.
  - by apply Habsent.
Qed.

(** ** Lookup by position *)

Lemma find_first {A} (f : A -> bool) (l : list A) (x : A) :
  List.find f l = Some x
  <-> exists before after,
        l = before ++ x :: after /\ f x = true
        /\ Forall (fun y => f y = false) before.
Proof.
  induction l as [|y l IH]; simpl.
  - split; [done|]. intros (before & after & Heq & _). by destruct before.
  - destruct (f y) eqn:Hy.
    + split.
      * intros [= ->]. exists [], l. by repeat split.
      * intros (before & after & Heq & Hx & Hbefore).
        destruct before as [|z before]; simpl in Heq.
        { by injection Heq as -> _. }
        injection Heq as -> _. apply Forall_cons in Hbefore as [Hz _].
        congruence.
    + rewrite IH. split.
      * intros (before & after & -> & Hx & Hbefore).
        exists (y :: before), after. split; [done|]. split; [done|].
        by constructor.
      * intros (before & after & Heq & Hx & Hbefore).
        destruct before as [|z before]; simpl in Heq.
        { injection Heq as -> _. congruence. }
        injection Heq as -> ->. apply Forall_cons in Hbefore as [_ Hbefore].
        by exists before, after.
Qed.

Lemma find_absent {A} (f : A -> bool) (l : list A) :
  List.find f l = None <-> Forall (fun y => f y = false) l.
Proof.
  induction l as [|y l IH]; simpl.
  - split; [by constructor|done].
  - destruct (f y) eqn:Hy.
    + split; [done|]. intros [Hy' _]%Forall_cons. congruence.
    + rewrite IH. split; [by constructor|]. by intros [_ ?]%Forall_cons.
Qed.

(** C8.  [documentAt] returns a document exactly when the file has an
    entry in which that document contains the position and no document
    stored before it does; it returns nothing exactly when the file has no
    entry or no document of its entry contains the position. *)
Theorem documentAt_first_match uri position p :
  (forall document,
     documentAt world uri position p = Some document
     <-> exists before after,
           documentsByFile p !! uri = Some (before ++ document :: after)
           /\ containsPosition world document position = true
           /\ Forall (fun d => containsPosition world d position = false)
                     before)
  /\ (documentAt world uri position p = None
      <-> documentsByFile p !! uri = None
          \/ exists documents,
               documentsByFile p !! uri = Some documents
               /\ Forall (fun d => containsPosition world d position = false)
                         documents).
Proof.
  unfold documentAt.
  destruct (documentsByFile p !! uri) as [documents|]; split.
  - intros document. rewrite find_first. split.
    + intros (before & after & -> & Hin & Hbefore). by exists before, after.
    + intros (before & after & [= ->] & Hin & Hbefore). by exists before, after.
  - rewrite find_absent. split.
    + intros Hnone. right. by exists documents.
    + intros [|(documents' & [= <-] & Hnone)]; done.
  - intros document. split; [done|]. by intros (? & ? & ? & _).
  - split; [by left|done].
Qed.

(** ** The initial scan *)

Lemma scanLoop_app files files' p :
  scanLoop world (files ++ files') p
  = ((scanLoop world files' (scanLoop world files p).1).1,
     (scanLoop world files p).2
       ++ (scanLoop world files' (scanLoop world files p).1).2).
Proof.
  revert p. induction files as [|filePath files IH]; intros p; simpl.
  { by destruct (scanLoop world files' p). }
  destruct (documentsByFile p !! _); [apply IH|].
  rewrite IH. by destruct (scanLoop world files _).
Qed.

Lemma removeGraphQLDocumentsFor_other uri uri' p :
  uri <> uri' ->
  documentsByFile (removeGraphQLDocumentsFor uri p) !! uri'
  = documentsByFile p !! uri'.
Proof.
  intros Hne. unfold removeGraphQLDocumentsFor.
  destruct (documentsByFile p !! uri); [|done].
  rewrite documentsByFile_invalidate. simpl.
  destruct (_onDiagnostics p); simpl; by apply lookup_delete_ne.
Qed.

(** [fileDidChange] touches no entry but that of its URI. *)
Lemma fileDidChange_other uri uri' p :
  uri <> uri' ->
  documentsByFile (fileDidChange world uri p) !! uri'
  = documentsByFile p !! uri'.
Proof.
  intros Hne. unfold fileDidChange.
  destruct (fileAssociations !! _); [|done].
  destruct (readFileSync _ _); [done|].
  unfold documentDidChange. destruct (extractGraphQLDocuments _ _); simpl.
  - rewrite documentsByFile_invalidate. simpl. by apply lookup_insert_ne.
  - by apply removeGraphQLDocumentsFor_other.
Qed.

Lemma scanLoop_skips_indexed files uri p :
  is_Some (documentsByFile p !! uri) -> uri ∉ (scanLoop world files p).2.
Proof.
  revert p. induction files as [|filePath files IH]; intros p Hindexed; simpl.
  { apply not_elem_of_nil. }
  destruct (documentsByFile p !! fileUri world filePath) eqn:Hlookup.
  { by apply IH. }
  assert (fileUri world filePath <> uri) as Hne.
  { intros Heq. rewrite Heq in Hlookup. rewrite Hlookup in Hindexed.
    by destruct Hindexed. }
  specialize (IH (fileDidChange world (fileUri world filePath) p)).
  rewrite (fileDidChange_other _ _ _ Hne) in IH. specialize (IH Hindexed).
  destruct (scanLoop world files _) as [p' calls]. simpl in *.
  apply not_elem_of_cons. by split.
Qed.

(** C9.  Split the enumeration at any file.  When the scan reaches the
    file, with the index as the files before it have left it, the file is
    skipped if its URI has an entry, and otherwise [fileDidChange] is
    called once with its URI; the calls of the whole scan are those for
    the files before, this one, and those for the files after, in order.
    A URI that has an entry when the scan starts is never passed to
    [fileDidChange], wherever its file comes in the enumeration. *)
Theorem scanLoop_calls_exactly_absent before filePath after p :
  let reachedAt := (scanLoop world before p).1 in
  let uri := fileUri world filePath in
  let next := match documentsByFile reachedAt !! uri with
              | Some _ => reachedAt
              | None => fileDidChange world uri reachedAt
              end in
  (scanLoop world (before ++ filePath :: after) p).2
  = (scanLoop world before p).2
      ++ (match documentsByFile reachedAt !! uri with
          | Some _ => []
          | None => [uri]
          end)
      ++ (scanLoop world after next).2
  /\ (scanLoop world (before ++ filePath :: after) p).1
     = (scanLoop world after next).1
  /\ scanAllIncludedFiles world self p
     = emit (LoadingHandle ("Loading queries for " +:+ displayName self))
            (scanLoop world (allFiles world) p).1
  /\ (forall indexed,
        is_Some (documentsByFile p !! indexed) ->
        indexed ∉ (scanLoop world (before ++ filePath :: after) p).2).
Proof.
  intros reachedAt uri next.
  assert (forall indexed,
            is_Some (documentsByFile p !! indexed) ->
            indexed ∉ (scanLoop world (before ++ filePath :: after) p).2)
    as Hskips.
  { intros indexed. apply scanLoop_skips_indexed. }
  revert Hskips. rewrite scanLoop_app. simpl.
  fold reachedAt uri. subst next.
  destruct (documentsByFile reachedAt !! uri); [done|].
  by destruct (scanLoop world after _).
Qed.

End DocumentIndex.

(** * The properties on the sample project *)

Section Examples.

Lemma sample_extractsNonEmpty : extractsNonEmpty Sample.world.
Proof.
  intros document documents. simpl. unfold Sample.extract.
  destruct (String.eqb _ _); [|done]. by intros [= <-].
Defined.

(** A file changes while the project initializes, two subtasks resolve,
    and [invalidate] is called three times before the timer phase. *)
Lemma invalidate_burst_validates_once_witness :
  1 <= 3
  /\ hasThrown
       (run Sample.world Sample.project
            [CallFileDidChange "/a.graphql"; InitSettled [Resolved; Resolved]]
            construct) = false
  /\ validations
       (drainTimers Sample.project
          (burst 3
             (run Sample.world Sample.project
                  [CallFileDidChange "/a.graphql"; InitSettled [Resolved; Resolved]]
                  construct)))
     = 1.
Proof.
  split; [lia|]. split; [reflexivity|].
  destruct (invalidate_burst_validates_once Sample.world Sample.project
              [CallFileDidChange "/a.graphql"; InitSettled [Resolved; Resolved]] 3)
    as [Hready _]; [lia|reflexivity|].
  destruct (Hready eq_refl) as [Hcount _]. exact Hcount.
Defined.

(** C1 as stated fails after a throwing [validate]: the project is ready,
    the first validation threw, and two further calls of [invalidate]
    queue nothing and cause no call of [validate]. *)
Lemma invalidate_burst_after_throw_validates_never :
  isReady (run Sample.world Sample.throwingProject
               [InitSettled []; TimerFired] construct) = true
  /\ timers (burst 2 (run Sample.world Sample.throwingProject
                          [InitSettled []; TimerFired] construct)) = []
  /\ validations
       (drainTimers Sample.throwingProject
          (burst 2 (run Sample.world Sample.throwingProject
                        [InitSettled []; TimerFired] construct)))
     = validations (run Sample.world Sample.throwingProject
                        [InitSettled []; TimerFired] construct).
Proof. by vm_compute. Qed.

Lemma documentsByFile_entries_non_empty_witness :
  extractsNonEmpty Sample.world
  /\ indexNonEmpty
       (documentDidChange Sample.world
          (TextDocument.create "/a.graphql" "graphql" 1 "query { me }")
          (run Sample.world Sample.project [CallFileDidChange "/b.graphql"]
               construct)).
Proof.
  split; [exact sample_extractsNonEmpty|].
  exact (proj1 (proj2
    (documentsByFile_entries_non_empty Sample.world Sample.project
       [CallFileDidChange "/b.graphql"]
       (TextDocument.create "/a.graphql" "graphql" 1 "query { me }")
       sample_extractsNonEmpty))).
Defined.

(** C2 as stated fails for an extractor that returns an empty array: the
    array is stored under the URI. *)
Lemma documentDidChange_stores_empty_array :
  documentsByFile
    (documentDidChange Sample.emptyArrayWorld
       (TextDocument.create "/a.js" "javascript" 1 "const answer = 42")
       construct) !! "/a.js" = Some []
  /\ ~ indexNonEmpty
       (documentDidChange Sample.emptyArrayWorld
          (TextDocument.create "/a.js" "javascript" 1 "const answer = 42")
          construct).
Proof.
  assert (documentsByFile
            (documentDidChange Sample.emptyArrayWorld
               (TextDocument.create "/a.js" "javascript" 1 "const answer = 42")
               construct) !! "/a.js" = Some []) as Hstored.
  { reflexivity. }
  split; [done|]. intros Hnonempty. by apply (Hnonempty "/a.js" []).
Qed.

Lemma invalidate_before_ready_changes_nothing_witness :
  isReady (run Sample.world Sample.project [CallFileDidChange "/a.graphql"]
               construct) = false
  /\ needsValidation
       (invalidate (run Sample.world Sample.project
                        [CallFileDidChange "/a.graphql"] construct)) = false.
Proof.
  split; [reflexivity|].
  destruct (invalidate_before_ready_changes_nothing Sample.world Sample.project
              [CallFileDidChange "/a.graphql"]
              (run Sample.world Sample.project [CallFileDidChange "/a.graphql"]
                   construct) eq_refl) as [_ Hreached].
  exact (proj1 (Hreached eq_refl)).
Defined.

(** C3 as stated fails on a project that has just been constructed: it is
    not ready, and [invalidate] leaves the flag false. *)
Lemma invalidate_before_ready_leaves_flag_false :
  isReady (@construct Sample.Doc) = false
  /\ needsValidation (invalidate (@construct Sample.Doc)) = false.
Proof. by split. Qed.

Lemma runTimer_clears_flag_when_validate_returns_witness :
  needsValidation
    (run Sample.world Sample.project [InitSettled [Resolved]] construct) = true
  /\ needsValidation
       (runTimer Sample.project
          (run Sample.world Sample.project [InitSettled [Resolved]] construct))
     = false.
Proof.
  split; [reflexivity|].
  exact (proj1
    (runTimer_clears_flag_when_validate_returns Sample.project
       (run Sample.world Sample.project [InitSettled [Resolved]] construct) []
       eq_refl eq_refl eq_refl eq_refl)).
Defined.

(** C4 as stated fails when [validate] throws: the turn runs with the flag
    set and the project ready, and the flag is still set afterwards. *)
Lemma runTimer_keeps_flag_when_validate_throws :
  timers (run Sample.world Sample.throwingProject [InitSettled []] construct)
  = [CallValidateIfNeeded]
  /\ needsValidation
       (run Sample.world Sample.throwingProject [InitSettled []] construct)
     = true
  /\ isReady
       (run Sample.world Sample.throwingProject [InitSettled []] construct)
     = true
  /\ needsValidation
       (runTimer Sample.throwingProject
          (run Sample.world Sample.throwingProject [InitSettled []] construct))
     = true
  /\ effects
       (runTimer Sample.throwingProject
          (run Sample.world Sample.throwingProject [InitSettled []] construct))
     = [Validate; Uncaught "validation failed"].
Proof. by vm_compute. Qed.


Lemma fileDidChange_unsupported_or_unreadable_witness :
  (extname Sample.world (fsPath Sample.world "/notes.txt")
   ∉ supportedExtensions)
  /\ fileDidChange Sample.world "/notes.txt" construct = construct
  /\ (extname Sample.world (fsPath Sample.world "/missing.graphql")
      ∈ supportedExtensions)
  /\ readFileSync Sample.world (fsPath Sample.world "/missing.graphql")
     = inl "ENOENT: no such file or directory"
  /\ fileDidChange Sample.world "/missing.graphql" construct
     = emit (ConsoleError "ENOENT: no such file or directory") construct.
Proof.
  assert (extname Sample.world (fsPath Sample.world "/notes.txt")
          ∉ supportedExtensions) as Hunsupported.
  { change (".txt" ∉ supportedExtensions). unfold supportedExtensions.
    intros Hin.
    repeat (apply elem_of_cons in Hin as [Hin|Hin]; [discriminate Hin|]).
    by apply elem_of_nil in Hin. }
  assert (extname Sample.world (fsPath Sample.world "/missing.graphql")
          ∈ supportedExtensions) as Hsupported.
  { apply list_elem_of_here. }
  split; [exact Hunsupported|]. split.
  { exact (proj1 (fileDidChange_unsupported_or_unreadable Sample.world
                    "/notes.txt" construct) Hunsupported). }
  split; [exact Hsupported|]. split; [reflexivity|].
  exact (proj1 (proj2 (fileDidChange_unsupported_or_unreadable Sample.world
                         "/missing.graphql" construct)
                      "ENOENT: no such file or directory" Hsupported eq_refl)).
Defined.

Lemma removeGraphQLDocumentsFor_absent_is_noop_witness :
  documentsByFile
    (run Sample.world Sample.project [CallOnDiagnostics 7; InitSettled []]
         construct) !! "/b.graphql" = None
  /\ fileWasDeleted "/b.graphql"
       (run Sample.world Sample.project [CallOnDiagnostics 7; InitSettled []]
            construct)
     = run Sample.world Sample.project [CallOnDiagnostics 7; InitSettled []]
           construct.
Proof.
  split; [reflexivity|].
  exact (proj2 (proj1 (removeGraphQLDocumentsFor_absent_is_noop "/b.graphql"
                         (run Sample.world Sample.project
                              [CallOnDiagnostics 7; InitSettled []] construct))
                      eq_refl)).
Defined.

Lemma scanLoop_calls_exactly_absent_witness :
  is_Some
    (documentsByFile
       (run Sample.world Sample.project [CallFileDidChange "/b.graphql"]
            construct) !! "/b.graphql")
  /\ "/b.graphql"
     ∉ (scanLoop Sample.world ["/a.graphql"; "/notes.txt"; "/b.graphql"]
          (run Sample.world Sample.project [CallFileDidChange "/b.graphql"]
               construct)).2.
Proof.
  assert (is_Some
            (documentsByFile
               (run Sample.world Sample.project [CallFileDidChange "/b.graphql"]
                    construct) !! "/b.graphql")) as Hindexed.
  { by eexists. }
  split; [exact Hindexed|].
  destruct (scanLoop_calls_exactly_absent Sample.world Sample.project
              ["/a.graphql"] "/notes.txt" ["/b.graphql"]
              (run Sample.world Sample.project [CallFileDidChange "/b.graphql"]
                   construct)) as (_ & _ & _ & Hskips).
  exact (Hskips "/b.graphql" Hindexed).
Defined.

(** [documentAt] picks the first of two overlapping documents. *)
Example documentAt_overlapping :
  documentAt Sample.world "/a.js" (mkPosition 3 0)
    (set_documentsByFile
       {[ "/a.js" := [Sample.mkDoc 0 1; Sample.mkDoc 2 5; Sample.mkDoc 3 4] ]}
       construct)
  = Some (Sample.mkDoc 2 5).
Proof. reflexivity. Qed.

(** The scan skips the file that is already indexed and the one with an
    unsupported extension is passed to [fileDidChange], which ignores it. *)
Example scanLoop_sample :
  (scanLoop Sample.world (allFiles Sample.world)
     (run Sample.world Sample.project [CallFileDidChange "/b.graphql"]
          construct)).2
  = ["/a.graphql"; "/notes.txt"].
Proof. reflexivity. Qed.

End Examples.

(** * The scheduler and the index under arbitrary events *)

Section Coverage.

Context {GraphQLDocument : Type}.
Variable world : @World GraphQLDocument.
Variable self : @Subclass GraphQLDocument.
Implicit Types p q : @Project GraphQLDocument.

Local Abbreviation reached evs := (run world self evs construct).

Lemma run_app evs evs' p :
  run world self (evs ++ evs') p = run world self evs' (run world self evs p).
Proof.
  revert p. induction evs as [|ev evs IH]; intros p; simpl; [done|]. apply IH.
Qed.

Lemma syncSteps_trans p q r : syncSteps p q -> syncSteps q r -> syncSteps p r.
Proof.
  intros Hpq Hqr.
  induction Hpq as [p|m p q _ IH|h p q _ IH|p q _ IH|s p q _ IH
                    |e p q Hv Hu _ IH|p q _ IH].
  - done.
  - by eapply syncSteps_documents, IH.
  - by eapply syncSteps_handler, IH.
  - by eapply syncSteps_ready, IH.
  - by eapply syncSteps_promise, IH.
  - by eapply syncSteps_emit, IH.
  - by eapply syncSteps_invalidate, IH.
Qed.

Lemma syncSteps_removeGraphQLDocumentsFor uri p :
  syncSteps p (removeGraphQLDocumentsFor uri p).
Proof.
  unfold removeGraphQLDocumentsFor.
  destruct (documentsByFile p !! uri); [|constructor].
  apply (syncSteps_documents (delete uri (documentsByFile p))). simpl.
  destruct (_onDiagnostics p) as [handler|].
  - apply (syncSteps_emit (PublishDiagnostics handler uri)); [done..|].
    apply syncSteps_invalidate. constructor.
  - apply syncSteps_invalidate. constructor.
Qed.

Lemma syncSteps_documentDidChange document p :
  syncSteps p (documentDidChange world document p).
Proof.
  unfold documentDidChange.
  destruct (extractGraphQLDocuments _ _) as [documents|].
  - apply (syncSteps_documents
             (<[TextDocument.uri document := documents]> (documentsByFile p))).
    apply syncSteps_invalidate. constructor.
  - apply syncSteps_removeGraphQLDocumentsFor.
Qed.

Lemma syncSteps_fileDidChange uri p :
  syncSteps p (fileDidChange world uri p).
Proof.
  unfold fileDidChange. destruct (fileAssociations !! _); [|constructor].
  destruct (readFileSync _ _) as [error|contents].
  - apply (syncSteps_emit (ConsoleError error)); [done..|]. constructor.
  - apply syncSteps_documentDidChange.
Qed.

Lemma syncSteps_scanLoop files p :
  syncSteps p (scanLoop world files p).1.
Proof.
  revert p. induction files as [|filePath files IH]; intros p; simpl.
  { constructor. }
  destruct (documentsByFile p !! _); [apply IH|].
  specialize (IH (fileDidChange world (fileUri world filePath) p)).
  destruct (scanLoop _ _ _) as [p' calls]. simpl in *.
  eapply syncSteps_trans; [apply syncSteps_fileDidChange|done].
Qed.

Lemma syncSteps_initSettled subtasks p :
  syncSteps p (initSettled self subtasks p).
Proof.
  unfold initSettled. destruct (readyPromise p); [|constructor..].
  destruct (Promise_all subtasks) as [|error]; simpl.
  - apply syncSteps_ready, syncSteps_invalidate.
    apply (syncSteps_promise Fulfilled). constructor.
  - apply (syncSteps_emit (ConsoleError error)); [done..|].
    apply (syncSteps_emit
             (LoadingShowError (initializeErrorMessage self error))); [done..|].
    apply (syncSteps_promise Fulfilled). constructor.
Qed.

(** Every event but the timer turn is made of synchronous steps. *)
Lemma syncSteps_step ev p :
  isTimerFired ev = false -> syncSteps p (step world self ev p).
Proof.
  intros Hev. destruct ev; simpl; try done.
  - apply syncSteps_initSettled.
  - apply (syncSteps_handler (Some handler)). constructor.
  - apply syncSteps_fileDidChange.
  - apply syncSteps_removeGraphQLDocumentsFor.
  - apply syncSteps_documentDidChange.
  - eapply syncSteps_trans; [apply (syncSteps_scanLoop (allFiles world))|].
    apply (syncSteps_emit
             (LoadingHandle ("Loading queries for " +:+ displayName self)));
      [done..|]. constructor.
  - apply syncSteps_invalidate. constructor.
Qed.

Lemma syncSteps_run evs p :
  Forall (fun ev => isTimerFired ev = false) evs ->
  syncSteps p (run world self evs p).
Proof.
  intros Hevs. revert p.
  induction Hevs as [|ev evs Hev _ IH]; intros p; simpl; [constructor|].
  eapply syncSteps_trans; [by apply syncSteps_step|apply IH].
Qed.

Lemma syncSteps_validations p q : syncSteps p q -> validations q = validations p.
Proof.
  induction 1 as [| | | | |e p q Hv Hu _ IH|p q _ IH]; try done.
  - rewrite IH, validations_emit. rewrite Hv. lia.
  - rewrite IH. unfold validations. by rewrite effects_invalidate.
Qed.

Lemma syncSteps_hasThrown p q : syncSteps p q -> hasThrown q = hasThrown p.
Proof.
  induction 1 as [| | | | |e p q Hv Hu _ IH|p q _ IH]; try done.
  - rewrite IH. unfold hasThrown. simpl. rewrite existsb_app. simpl.
    rewrite Hu. by rewrite !orb_false_r.
  - rewrite IH. unfold hasThrown. by rewrite effects_invalidate.
Qed.

Lemma syncSteps_flag p q :
  syncSteps p q -> needsValidation p = true -> needsValidation q = true.
Proof.
  induction 1 as [| | | | | |p q _ IH]; try done.
  intros Hflag. apply IH. by rewrite invalidate_pending.
Qed.

Lemma syncSteps_atMostOneTimer p q :
  syncSteps p q -> atMostOneTimer p -> atMostOneTimer q.
Proof.
  induction 1 as [|m p q _ IH|h p q _ IH|p q _ IH|s p q _ IH
                  |e p q _ _ _ IH|p q _ IH]; intros Hp; try done.
  - apply IH. destruct Hp as [?|(? & ? & ?)]; [by left|by right].
  - apply IH. destruct Hp as [?|(? & ? & ?)]; [by left|by right].
  - apply IH. destruct Hp as [?|(? & ? & ?)]; [by left|by right].
  - apply IH. destruct Hp as [?|(? & ? & ?)]; [by left|by right].
  - apply IH. destruct Hp as [?|(? & ? & ?)]; [by left|by right].
  - apply IH. destruct Hp as [Hnone|(Hone & Hflag & Hready)].
    + unfold invalidate.
      destruct (negb (needsValidation p) && isReady p) eqn:Hguard;
        [|by left].
      apply andb_true_iff in Hguard as [_ Hready].
      right. simpl. by rewrite Hnone.
    + right. by rewrite invalidate_pending.
Qed.

(** What a timer turn does to the number of validations. *)
Lemma validations_runTimer p :
  validations (runTimer self p)
  = validations p
    + (if bool_decide (timers p <> []) && needsValidation p && isReady p
       then 1 else 0).
Proof.
  unfold runTimer. destruct (timers p) as [|[] rest]; simpl; [lia|].
  unfold validateIfNeeded. simpl. fold (isReady p).
  destruct (needsValidation p), (isReady p); simpl;
    try (unfold validations; simpl; lia).
  destruct (validate self _); simpl.
  - unfold validations. simpl. rewrite countValidate_app. simpl. lia.
  - unfold validations. simpl. rewrite !countValidate_app. simpl. lia.
Qed.

Lemma atMostOneTimer_runTimer p :
  atMostOneTimer p -> atMostOneTimer (runTimer self p).
Proof.
  intros [Hnone|(Hone & Hflag & Hready)]; left.
  - unfold runTimer. by rewrite Hnone.
  - unfold runTimer. rewrite Hone. simpl. unfold validateIfNeeded. simpl.
    destruct (negb (needsValidation p) || negb (_isReady p)); simpl; [done|].
    by destruct (validate self _).
Qed.

Lemma atMostOneTimer_step ev p :
  atMostOneTimer p -> atMostOneTimer (step world self ev p).
Proof.
  intros Hp. destruct (isTimerFired ev) eqn:Hev.
  - destruct ev; try done. by apply atMostOneTimer_runTimer.
  - apply (syncSteps_atMostOneTimer p); [by apply syncSteps_step|done].
Qed.

Lemma not_ready_step ev p :
  isReady (step world self ev p) = false -> isReady p = false.
Proof.
  intros Hafter. destruct (isReady p) eqn:Hbefore; [|done].
  by rewrite (isReady_step_true world self ev p Hbefore) in Hafter.
Qed.

Lemma validations_not_ready evs :
  isReady (reached evs) = false -> validations (reached evs) = 0.
Proof.
  induction evs as [|ev evs IH] using rev_ind; [done|].
  rewrite run_app. simpl. intros Hafter.
  pose proof (not_ready_step _ _ Hafter) as Hbefore.
  destruct (isTimerFired ev) eqn:Hev.
  - destruct ev; try done. simpl. rewrite validations_runTimer, Hbefore.
    rewrite andb_false_r. rewrite IH by done. lia.
  - rewrite (syncSteps_validations _ _ (syncSteps_step ev _ Hev)).
    by apply IH.
Qed.

Lemma atMostOneTimer_reachable evs : atMostOneTimer (reached evs).
Proof.
  induction evs as [|ev evs IH] using rev_ind; [by left|].
  rewrite run_app. simpl. by apply atMostOneTimer_step.
Qed.

Lemma validations_run evs p :
  validations (run world self evs p)
  <= validations p + length (List.filter isTimerFired evs).
Proof.
  revert p. induction evs as [|ev evs IH]; intros p; simpl; [lia|].
  specialize (IH (step world self ev p)).
  destruct (isTimerFired ev) eqn:Hev; simpl.
  - destruct ev; try done. simpl in *. rewrite validations_runTimer in IH.
    destruct (_ && _); lia.
  - rewrite (syncSteps_validations _ _ (syncSteps_step ev p Hev)) in IH. lia.
Qed.

Lemma invalidate_ready_flag p :
  isReady p = true -> needsValidation (invalidate p) = true.
Proof.
  intros Hready. unfold invalidate.
  destruct (needsValidation p) eqn:Hflag; simpl; [done|]. by rewrite Hready.
Qed.

(** On a ready project a method call leaves the index as it is or leaves
    the pending flag set. *)
Lemma changed_removeGraphQLDocumentsFor uri p :
  isReady p = true ->
  documentsByFile (removeGraphQLDocumentsFor uri p) = documentsByFile p
  \/ needsValidation (removeGraphQLDocumentsFor uri p) = true.
Proof.
  intros Hready. unfold removeGraphQLDocumentsFor.
  destruct (documentsByFile p !! uri); [|by left].
  right. apply invalidate_ready_flag. simpl. by destruct (_onDiagnostics p).
Qed.

Lemma changed_documentDidChange document p :
  isReady p = true ->
  documentsByFile (documentDidChange world document p) = documentsByFile p
  \/ needsValidation (documentDidChange world document p) = true.
Proof.
  intros Hready. unfold documentDidChange.
  destruct (extractGraphQLDocuments _ _).
  - right. by apply invalidate_ready_flag.
  - by apply changed_removeGraphQLDocumentsFor.
Qed.

Lemma changed_fileDidChange uri p :
  isReady p = true ->
  documentsByFile (fileDidChange world uri p) = documentsByFile p
  \/ needsValidation (fileDidChange world uri p) = true.
Proof.
  intros Hready. unfold fileDidChange.
  destruct (fileAssociations !! _); [|by left].
  destruct (readFileSync _ _); [by left|].
  by apply changed_documentDidChange.
Qed.

Lemma changed_scanLoop files p :
  isReady p = true ->
  documentsByFile (scanLoop world files p).1 = documentsByFile p
  \/ needsValidation (scanLoop world files p).1 = true.
Proof.
  revert p. induction files as [|filePath files IH]; intros p Hready; simpl.
  { by left. }
  destruct (documentsByFile p !! _); [by apply IH|].
  set (p1 := fileDidChange world (fileUri world filePath) p).
  assert (isReady p1 = true) as Hready1.
  { destruct (frame_fileDidChange world (fileUri world filePath) p)
      as (Hr & _). unfold p1. by rewrite Hr. }
  pose proof (syncSteps_scanLoop files p1) as Hsteps.
  specialize (IH p1 Hready1).
  destruct (scanLoop world files p1) as [q calls]. simpl in *.
  destruct (changed_fileDidChange (fileUri world filePath) p Hready)
    as [Hsame|Hflag].
  - fold p1 in Hsame. rewrite <- Hsame. exact IH.
  - right. by apply (syncSteps_flag p1).
Qed.

Lemma changed_step ev p :
  isReady p = true -> isTimerFired ev = false ->
  documentsByFile (step world self ev p) = documentsByFile p
  \/ needsValidation (step world self ev p) = true.
Proof.
  intros Hready Hev. destruct ev; simpl; try done.
  - left. apply documentsByFile_initSettled.
  - by left.
  - by apply changed_fileDidChange.
  - by apply changed_removeGraphQLDocumentsFor.
  - by apply changed_documentDidChange.
  - by apply (changed_scanLoop (allFiles world)).
  - left. apply documentsByFile_invalidate.
Qed.

(** After any events without a timer turn, from a state in which no
    validation has thrown, the timer phase validates once if the flag is
    set and not at all otherwise. *)
Lemma drainTimers_after_sync evs0 evs :
  hasThrown (reached evs0) = false ->
  Forall (fun ev => isTimerFired ev = false) evs ->
  validations (drainTimers self (run world self evs (reached evs0)))
  = validations (reached evs0)
    + (if needsValidation (run world self evs (reached evs0)) then 1 else 0)
  /\ timers (drainTimers self (run world self evs (reached evs0))) = [].
Proof.
  intros Hquiet Hevs.
  pose proof (syncSteps_run evs (reached evs0) Hevs) as Hsteps.
  pose proof (syncSteps_validations _ _ Hsteps) as Hcount.
  pose proof (syncSteps_hasThrown _ _ Hsteps) as Hthrown.
  rewrite Hquiet in Hthrown.
  rewrite <- run_app in *.
  destruct (consistent_reachable world self (evs0 ++ evs) Hthrown)
    as [Htimers Hready].
  destruct (needsValidation (reached (evs0 ++ evs))) eqn:Hflag.
  - destruct (drainTimers_pending self (reached (evs0 ++ evs)))
      as [Hdrained Hempty]; [by apply Hready|done|done|].
    split; [|done]. by rewrite Hdrained, Hcount.
  - unfold drainTimers. rewrite Htimers. simpl. split; [|done].
    rewrite Hcount. lia.
Qed.

(** X1.  As long as the project is not ready, [validate] has not been
    called; after a failed initialization it is never called, whatever
    events follow. *)
Theorem validate_never_before_ready :
  (forall evs, isReady (reached evs) = false -> validations (reached evs) = 0)
  /\ (forall evs subtasks evs',
        readyPromise (reached evs) = Pending ->
        (exists error, RejectedWith error ∈ subtasks) ->
        validations
          (run world self evs' (initSettled self subtasks (reached evs))) = 0).
Proof.
  split; [apply validations_not_ready|].
  intros evs subtasks evs' Hpending Hfail.
  destruct (Promise_all_rejected subtasks Hfail) as (error & _ & Hall).
  destruct (initSettled_failure world self evs subtasks evs' error Hpending Hall)
    as (_ & Hready & _).
  change (initSettled self subtasks (reached evs))
    with (run world self [InitSettled subtasks] (reached evs)) in *.
  rewrite <- !run_app in *. by apply validations_not_ready.
Qed.

(** X2.  No method call and no settlement of the initialization calls
    [validate]: the count of validations changes only in a timer turn, by
    one when a callback is queued with the flag set on a ready project and
    not at all otherwise; along a run it grows by at most the number of
    timer turns. *)
Theorem validate_only_in_timer_turns evs ev p :
  (isTimerFired ev = false ->
   validations (step world self ev p) = validations p)
  /\ validations (step world self TimerFired p)
     = validations p
       + (if bool_decide (timers p <> []) && needsValidation p && isReady p
          then 1 else 0)
  /\ validations (run world self evs p)
     <= validations p + length (List.filter isTimerFired evs).
Proof.
  split; [|split].
  - intros Hev. apply syncSteps_validations. by apply syncSteps_step.
  - apply validations_runTimer.
  - apply validations_run.
Qed.

(** X3.  In every state the project can reach, also after a throwing
    [validate], at most one timer callback is queued, and while one is
    queued the pending flag is set and the project is ready. *)
Theorem at_most_one_timer_queued evs :
  length (timers (reached evs)) <= 1
  /\ (timers (reached evs) <> [] ->
      needsValidation (reached evs) = true /\ isReady (reached evs) = true).
Proof.
  destruct (atMostOneTimer_reachable evs) as [Hnone|(Hone & Hflag & Hready)].
  - rewrite Hnone. split; [simpl; lia|done].
  - rewrite Hone. split; [simpl; lia|done].
Qed.

(** X4.  Any number of method calls between two timer phases is validated
    at most once: from a reachable state in which no validation has
    thrown, after events none of which is a timer turn, the timer phase
    calls [validate] once if the pending flag is set and not at all
    otherwise, and leaves no callback queued. *)
Theorem storm_validates_at_most_once evs0 evs :
  hasThrown (reached evs0) = false ->
  Forall (fun ev => isTimerFired ev = false) evs ->
  validations (drainTimers self (run world self evs (reached evs0)))
  = validations (reached evs0)
    + (if needsValidation (run world self evs (reached evs0)) then 1 else 0)
  /\ validations (drainTimers self (run world self evs (reached evs0)))
     <= validations (reached evs0) + 1
  /\ timers (drainTimers self (run world self evs (reached evs0))) = [].
Proof.
  intros Hquiet Hevs.
  destruct (drainTimers_after_sync evs0 evs Hquiet Hevs) as [Hcount Hempty].
  split; [done|]. split; [|done]. rewrite Hcount.
  destruct (needsValidation _); lia.
Qed.

End Coverage.

Section IndexCoverage.

Context {GraphQLDocument : Type}.
Variable world : @World GraphQLDocument.
Variable self : @Subclass GraphQLDocument.
Implicit Types p q : @Project GraphQLDocument.

Lemma removeGraphQLDocumentsFor_lookup uri p :
  documentsByFile (removeGraphQLDocumentsFor uri p) !! uri = None.
Proof.
  unfold removeGraphQLDocumentsFor.
  destruct (documentsByFile p !! uri) eqn:Hlookup; [|done].
  rewrite documentsByFile_invalidate. simpl.
  destruct (_onDiagnostics p); simpl; apply lookup_delete_eq.
Qed.

Lemma documentDidChange_other document uri p :
  TextDocument.uri document <> uri ->
  documentsByFile (documentDidChange world document p) !! uri
  = documentsByFile p !! uri.
Proof.
  intros Hne. unfold documentDidChange.
  destruct (extractGraphQLDocuments _ _).
  - rewrite documentsByFile_invalidate. simpl. by apply lookup_insert_ne.
  - by apply removeGraphQLDocumentsFor_other.
Qed.

Lemma fileDidChange_lookup uri p :
  documentsByFile (fileDidChange world uri p) !! uri
  = match fileDocuments world uri with
    | Some entry => entry
    | None => documentsByFile p !! uri
    end.
Proof.
  unfold fileDidChange, fileDocuments.
  destruct (fileAssociations !! _); [|done].
  destruct (readFileSync _ _); [done|].
  apply (documentDidChange_lookup world).
Qed.

Lemma written_Some uri ev entry p :
  written world uri ev = Some entry ->
  documentsByFile (step world self ev p) !! uri = entry.
Proof.
  destruct ev; simpl; try done.
  - destruct (decide (uri0 = uri)) as [->|]; [|done].
    intros Hfile. by rewrite fileDidChange_lookup, Hfile.
  - destruct (decide (uri0 = uri)) as [->|]; [|done].
    intros [= <-]. apply removeGraphQLDocumentsFor_lookup.
  - destruct (decide (TextDocument.uri document = uri)) as [<-|]; [|done].
    intros [= <-]. apply (documentDidChange_lookup world).
Qed.

Lemma written_None uri ev p :
  written world uri ev = None -> isScan ev = false ->
  documentsByFile (step world self ev p) !! uri = documentsByFile p !! uri.
Proof.
  destruct ev; simpl; try done.
  - intros _ _. by rewrite documentsByFile_initSettled.
  - intros _ _. by rewrite documentsByFile_runTimer.
  - destruct (decide (uri0 = uri)) as [->|Hne].
    + intros Hfile _. by rewrite fileDidChange_lookup, Hfile.
    + intros _ _. by apply fileDidChange_other.
  - destruct (decide (uri0 = uri)) as [->|Hne]; [done|].
    intros _ _. by apply removeGraphQLDocumentsFor_other.
  - destruct (decide (TextDocument.uri document = uri)) as [<-|Hne]; [done|].
    intros _ _. by apply documentDidChange_other.
  - intros _ _. by rewrite documentsByFile_invalidate.
Qed.

Lemma unaddressed_run uri evs p :
  Forall (fun ev => written world uri ev = None /\ isScan ev = false) evs ->
  documentsByFile (run world self evs p) !! uri = documentsByFile p !! uri.
Proof.
  intros Hevs. revert p.
  induction Hevs as [|ev evs [Hnone Hscan] _ IH]; intros p; simpl; [done|].
  rewrite IH. by apply written_None.
Qed.

(** X6.  The last write wins.  The entry of a URI after a run is what the
    last event addressing that URI wrote: the extractor's result for a
    [documentDidChange] or a [fileDidChange] that could read the file, no
    entry for a [fileWasDeleted]; events addressing other URIs, timer
    turns and unreadable or unsupported files in between do not matter. *)
Theorem last_write_wins uri before ev after entry p :
  written world uri ev = Some entry ->
  Forall (fun ev' => written world uri ev' = None /\ isScan ev' = false) after ->
  documentsByFile (run world self (before ++ ev :: after) p) !! uri = entry.
Proof.
  intros Hwritten Hafter. rewrite run_app. simpl.
  rewrite (unaddressed_run uri after _ Hafter). by apply written_Some.
Qed.

Lemma scanLoop_keeps files uri p :
  is_Some (documentsByFile p !! uri) ->
  documentsByFile (scanLoop world files p).1 !! uri = documentsByFile p !! uri.
Proof.
  revert p. induction files as [|filePath files IH]; intros p Hindexed; simpl.
  { done. }
  destruct (documentsByFile p !! fileUri world filePath) eqn:Hlookup.
  { by apply IH. }
  assert (fileUri world filePath <> uri) as Hne.
  { intros Heq. rewrite Heq in Hlookup. rewrite Hlookup in Hindexed.
    by destruct Hindexed. }
  pose proof (fileDidChange_other world _ _ p Hne) as Hother.
  specialize (IH (fileDidChange world (fileUri world filePath) p)).
  rewrite Hother in IH. specialize (IH Hindexed).
  by destruct (scanLoop world files _).
Qed.

Lemma scanLoop_absent files uri p :
  documentsByFile p !! uri = None -> yieldsDocuments world uri = false ->
  documentsByFile (scanLoop world files p).1 !! uri = None.
Proof.
  intros Hnone Hyields. revert p Hnone.
  induction files as [|filePath files IH]; intros p Hnone; simpl; [done|].
  destruct (documentsByFile p !! fileUri world filePath) eqn:Hlookup.
  { by apply IH. }
  specialize (IH (fileDidChange world (fileUri world filePath) p)).
  destruct (scanLoop world files _) as [q calls] eqn:Hscan. simpl in *.
  apply IH.
  destruct (decide (fileUri world filePath = uri)) as [->|Hne].
  - rewrite fileDidChange_lookup. unfold yieldsDocuments in Hyields.
    by destruct (fileDocuments world uri) as [[|]|].
  - by rewrite fileDidChange_other.
Qed.

Lemma scanLoop_indexes files filePath p :
  filePath ∈ files -> yieldsDocuments world (fileUri world filePath) = true ->
  is_Some (documentsByFile (scanLoop world files p).1 !! fileUri world filePath).
Proof.
  intros Hin Hyields. revert p.
  induction files as [|filePath' files IH]; intros p; simpl.
  { by apply elem_of_nil in Hin. }
  assert (forall q,
            is_Some (documentsByFile q !! fileUri world filePath) ->
            is_Some (documentsByFile (scanLoop world files q).1
                       !! fileUri world filePath)) as Hkept.
  { intros q Hq. by rewrite scanLoop_keeps. }
  apply elem_of_cons in Hin as [->|Hin].
  - destruct (documentsByFile p !! fileUri world filePath') eqn:Hlookup.
    { apply Hkept. by rewrite Hlookup. }
    specialize (Hkept (fileDidChange world (fileUri world filePath') p)).
    destruct (scanLoop world files _) as [q calls]. simpl in *.
    apply Hkept. rewrite fileDidChange_lookup.
    unfold yieldsDocuments in Hyields.
    by destruct (fileDocuments world _) as [[|]|].
  - specialize (IH Hin).
    destruct (documentsByFile p !! fileUri world filePath'); [apply IH|].
    specialize (IH (fileDidChange world (fileUri world filePath') p)).
    by destruct (scanLoop world files _).
Qed.

(** X7.  The scan never touches an entry that exists when it starts:
    whatever the file set enumerates, every URI with an entry keeps it. *)
Theorem scanAllIncludedFiles_keeps_entries uri p :
  is_Some (documentsByFile p !! uri) ->
  documentsByFile (scanAllIncludedFiles world self p) !! uri
  = documentsByFile p !! uri.
Proof.
  intros Hindexed. by apply (scanLoop_keeps (allFiles world)).
Qed.

(** X8.  After the scan an enumerated file has an entry exactly when it
    had one before or [fileDidChange] finds documents in it (supported
    extension, readable, extractor result not [null]). *)
Theorem scanAllIncludedFiles_indexes_files filePath p :
  filePath ∈ allFiles world ->
  is_Some (documentsByFile (scanAllIncludedFiles world self p)
             !! fileUri world filePath)
  <-> is_Some (documentsByFile p !! fileUri world filePath)
      \/ yieldsDocuments world (fileUri world filePath) = true.
Proof.
  intros Hin. simpl. split.
  - intros Hafter.
    destruct (documentsByFile p !! fileUri world filePath) eqn:Hbefore;
      [by left|].
    destruct (yieldsDocuments world (fileUri world filePath)) eqn:Hyields;
      [by right|].
    rewrite (scanLoop_absent (allFiles world) _ p Hbefore Hyields) in Hafter.
    by destruct Hafter.
  - intros [Hbefore|Hyields].
    + by rewrite scanLoop_keeps.
    + by apply scanLoop_indexes.
Qed.

(** X9.  Diagnostics are cleared exactly when an entry is removed.
    [fileWasDeleted], and [documentDidChange] with a [null] extraction,
    publish one empty set of diagnostics for the URI, to the handler
    registered last, if the URI had an entry and a handler is registered;
    in every other case, and whenever documents are stored, nothing is
    published. *)
Theorem diagnostics_cleared_on_removal uri document h1 h2 p :
  effects (fileWasDeleted uri p)
  = effects p
    ++ match documentsByFile p !! uri, _onDiagnostics p with
       | Some _, Some handler => [PublishDiagnostics handler uri]
       | _, _ => []
       end
  /\ effects (documentDidChange world document p)
     = effects p
       ++ match extractGraphQLDocuments world document,
                documentsByFile p !! TextDocument.uri document,
                _onDiagnostics p with
          | None, Some _, Some handler =>
              [PublishDiagnostics handler (TextDocument.uri document)]
          | _, _, _ => []
          end
  /\ effects (fileWasDeleted uri (onDiagnostics h2 (onDiagnostics h1 p)))
     = effects p
       ++ match documentsByFile p !! uri with
          | Some _ => [PublishDiagnostics h2 uri]
          | None => []
          end.
Proof.
  assert (forall uri' q,
            effects (removeGraphQLDocumentsFor uri' q)
            = effects q
              ++ match documentsByFile q !! uri', _onDiagnostics q with
                 | Some _, Some handler => [PublishDiagnostics handler uri']
                 | _, _ => []
                 end) as Hremove.
  { intros uri' q. unfold removeGraphQLDocumentsFor.
    destruct (documentsByFile q !! uri'); [|by rewrite app_nil_r].
    rewrite effects_invalidate. simpl.
    destruct (_onDiagnostics q); simpl; [done|by rewrite app_nil_r]. }
  split; [apply Hremove|]. split.
  - unfold documentDidChange.
    destruct (extractGraphQLDocuments world document).
    + rewrite effects_invalidate. simpl. by rewrite app_nil_r.
    + apply Hremove.
  - unfold fileWasDeleted. rewrite Hremove. simpl.
    by destruct (documentsByFile p !! uri).
Qed.

End IndexCoverage.

(** * The accessors over the whole index *)

Section AccessorCoverage.

Context {GraphQLDocument DefinitionNode : Type}.
Variable syntax : @Syntax GraphQLDocument DefinitionNode.
Implicit Types p q : @Project GraphQLDocument.
Implicit Types entries : list (DocumentUri * list GraphQLDocument).

(** The order in which stdpp lists a map is one enumeration; the order of
    insertion, which the [Map] uses, is another. *)
Lemma enumerates_map_to_list p : enumerates (map_to_list (documentsByFile p)) p.
Proof.
  split.
  - apply NoDup_fst_map_to_list.
  - intros uri documents. apply elem_of_map_to_list.
Qed.

Lemma enumerates_keys entries p uri :
  enumerates entries p -> uri ∈ entries.*1 <-> is_Some (documentsByFile p !! uri).
Proof.
  intros [_ Hentries]. rewrite list_elem_of_fmap. split.
  - intros ([uri' documents] & -> & Hin). apply Hentries in Hin. by eexists.
  - intros [documents Hlookup]. exists (uri, documents).
    split; [done|]. by apply Hentries.
Qed.

Lemma effects_publishAll handler uris p :
  effects (publishAll handler uris p)
  = effects p ++ (PublishDiagnostics handler <$> uris).
Proof.
  revert p. induction uris as [|uri uris IH]; intros p; simpl.
  { by rewrite app_nil_r. }
  rewrite IH. simpl. by rewrite <- (assoc_L (++)).
Qed.

Lemma publishAll_frame handler uris p :
  documentsByFile (publishAll handler uris p) = documentsByFile p
  /\ needsValidation (publishAll handler uris p) = needsValidation p
  /\ timers (publishAll handler uris p) = timers p
  /\ isReady (publishAll handler uris p) = isReady p
  /\ _onDiagnostics (publishAll handler uris p) = _onDiagnostics p.
Proof.
  revert p. induction uris as [|uri uris IH]; intros p; simpl; [done|].
  apply (IH (emit (PublishDiagnostics handler uri) p)).
Qed.

Lemma countPublish_app handler uri (es es' : list Effect) :
  countPublish handler uri (es ++ es')
  = countPublish handler uri es + countPublish handler uri es'.
Proof.
  unfold countPublish. by rewrite List.filter_app, length_app.
Qed.

Lemma countPublish_cons handler uri e (es : list Effect) :
  countPublish handler uri (e :: es)
  = (if isPublish handler uri e then 1 else 0) + countPublish handler uri es.
Proof.
  unfold countPublish. simpl. by destruct (isPublish handler uri e).
Qed.

Lemma countPublish_fmap handler handler' uri (uris : list DocumentUri) :
  NoDup uris ->
  countPublish handler uri (PublishDiagnostics handler' <$> uris)
  = if decide (handler' = handler /\ uri ∈ uris) then 1 else 0.
Proof.
  induction 1 as [|uri' uris Hnotin Hnodup IH].
  { simpl. rewrite decide_False; [done|]. intros [_ Hin].
    by apply elem_of_nil in Hin. }
  rewrite fmap_cons, countPublish_cons, IH. simpl.
  destruct (Nat.eqb_spec handler' handler) as [->|Hhandler]; simpl.
  - destruct (String.eqb_spec uri' uri) as [->|Huri]; simpl.
    + rewrite decide_False by (by intros [_ ?]).
      rewrite decide_True; [done|]. split; [done|]. by left.
    + destruct (decide (handler = handler /\ uri ∈ uris)) as [[_ Hin]|Hout].
      * rewrite decide_True; [done|]. split; [done|]. by right.
      * rewrite decide_False; [done|]. intros [_ Hin].
        apply elem_of_cons in Hin as [?|Hin]; [congruence|]. by apply Hout.
  - rewrite !decide_False; [done|by intros [? _]..].
Qed.

(** X10.  [clearAllDiagnostics] without a registered handler does
    nothing.  With a handler it publishes an empty set of diagnostics
    exactly once for every URI that has an entry and never for another
    URI or to another handler, and it changes neither the index nor the
    scheduler: nothing is invalidated. *)
Theorem clearAllDiagnostics_once_per_entry entries p :
  enumerates entries p ->
  (_onDiagnostics p = None -> clearAllDiagnostics entries p = p)
  /\ (forall handler handler' uri,
        _onDiagnostics p = Some handler ->
        countPublish handler' uri (effects (clearAllDiagnostics entries p))
        = countPublish handler' uri (effects p)
          + (if decide (handler = handler'
                        /\ is_Some (documentsByFile p !! uri))
             then 1 else 0))
  /\ documentsByFile (clearAllDiagnostics entries p) = documentsByFile p
  /\ needsValidation (clearAllDiagnostics entries p) = needsValidation p
  /\ timers (clearAllDiagnostics entries p) = timers p
  /\ validations (clearAllDiagnostics entries p) = validations p.
Proof.
  intros Henum. unfold clearAllDiagnostics. split; [|split].
  - by intros ->.
  - intros handler handler' uri ->.
    rewrite effects_publishAll, countPublish_app.
    rewrite (countPublish_fmap _ _ _ _ (proj1 Henum)).
    f_equal.
    destruct (decide (handler = handler' /\ uri ∈ entries.*1)) as [[? Hin]|Hout].
    + rewrite decide_True; [done|]. split; [done|].
      by apply (enumerates_keys entries p uri Henum).
    + rewrite decide_False; [done|]. intros [? Hin]. apply Hout.
      split; [done|]. by apply (enumerates_keys entries p uri Henum).
  - destruct (_onDiagnostics p) as [handler|]; [|done].
    destruct (publishAll_frame handler entries.*1 p) as (? & ? & ? & _).
    repeat split; try done.
    unfold validations. rewrite effects_publishAll, countValidate_app.
    assert (countValidate (PublishDiagnostics handler <$> entries.*1) = 0)
      as ->; [|lia].
    generalize (entries.*1). intros uris.
    induction uris as [|uri uris IH]; [done|]. rewrite fmap_cons. exact IH.
Qed.

Lemma elem_of_documents entries document :
  document ∈ documents entries
  <-> exists uri documentsForFile,
        (uri, documentsForFile) ∈ entries /\ document ∈ documentsForFile.
Proof.
  induction entries as [|[uri' documents'] entries IH]; simpl.
  - split; [by intros ?%elem_of_nil|].
    by intros (? & ? & ?%elem_of_nil & _).
  - rewrite elem_of_app, IH. split.
    + intros [Hhere|(uri & documentsForFile & Hin & Hdoc)].
      * exists uri', documents'. split; [by left|done].
      * exists uri, documentsForFile. split; [by right|done].
    + intros (uri & documentsForFile & Hin & Hdoc).
      apply elem_of_cons in Hin as [[= -> ->]|Hin]; [by left|].
      right. by exists uri, documentsForFile.
Qed.

Lemma documents_segment entries uri documentsForFile :
  (uri, documentsForFile) ∈ entries ->
  exists before after,
    documents entries = before ++ documentsForFile ++ after.
Proof.
  induction entries as [|[uri' documents'] entries IH]; simpl.
  { by intros ?%elem_of_nil. }
  intros [[= -> ->]|Hin]%elem_of_cons.
  - by exists [], (documents entries).
  - destruct (IH Hin) as (before & after & ->).
    exists (documents' ++ before), after. by rewrite <- (assoc_L (++)).
Qed.

Lemma documents_indexed entries p :
  enumerates entries p ->
  forall document,
    document ∈ documents entries
    <-> exists uri documentsForFile,
          documentsByFile p !! uri = Some documentsForFile
          /\ document ∈ documentsForFile.
Proof.
  intros [_ Hentries] document. rewrite elem_of_documents.
  split; intros (uri & documentsForFile & Hin & Hdoc);
    exists uri, documentsForFile; split; try done; by apply Hentries.
Qed.

(** X11.  The getter [documents] returns the documents of the index and
    nothing else: a document is in the result exactly when it is stored
    under some URI, and the documents of each file appear together, in
    their stored order. *)
Theorem documents_are_the_indexed_documents entries p :
  enumerates entries p ->
  (forall document,
     document ∈ documents entries
     <-> exists uri documentsForFile,
           documentsByFile p !! uri = Some documentsForFile
           /\ document ∈ documentsForFile)
  /\ (forall uri documentsForFile,
        documentsByFile p !! uri = Some documentsForFile ->
        exists before after,
          documents entries = before ++ documentsForFile ++ after).
Proof.
  intros Henum. split; [by apply documents_indexed|].
  destruct Henum as [_ Hentries].
  - intros uri documentsForFile Hlookup.
    apply (documents_segment entries uri). by apply Hentries.
Qed.

Lemma elem_of_typeSystemNodesOf (all : list GraphQLDocument) definition :
  definition ∈ typeSystemNodesOf syntax all
  <-> exists document definitions,
        document ∈ all /\ ast syntax document = Some definitions
        /\ definition ∈ definitions
        /\ isTypeSystemNode syntax definition = true.
Proof.
  induction all as [|document' all IH]; simpl.
  - split; [by intros ?%elem_of_nil|].
    by intros (? & ? & ?%elem_of_nil & _).
  - destruct (ast syntax document') as [definitions'|] eqn:Hast.
    + rewrite elem_of_app, IH, list_elem_of_In, List.filter_In,
        <- list_elem_of_In. split.
      * intros [[Hin Htype]|(document & definitions & Hin & Hast' & Hdef)].
        -- exists document', definitions'. split; [by left|done].
        -- exists document, definitions. split; [by right|done].
      * intros (document & definitions & Hin & Hast' & Hdef & Htype).
        apply elem_of_cons in Hin as [->|Hin].
        -- left. rewrite Hast in Hast'. by injection Hast' as ->.
        -- right. by exists document, definitions.
    + rewrite IH. split.
      * intros (document & definitions & Hin & Hrest).
        exists document, definitions. split; [by right|done].
      * intros (document & definitions & Hin & Hast' & Hrest).
        apply elem_of_cons in Hin as [->|Hin]; [congruence|].
        by exists document, definitions.
Qed.

(** X12.  [typeSystemDefinitionsAndExtensions] returns exactly the
    top-level definitions of the indexed documents that are type-system
    definitions or type-system extensions; a document without a syntax
    tree contributes nothing. *)
Theorem typeSystemDefinitionsAndExtensions_exact entries p :
  enumerates entries p ->
  forall definition,
    definition ∈ typeSystemDefinitionsAndExtensions syntax entries
    <-> exists uri documentsForFile document definitions,
          documentsByFile p !! uri = Some documentsForFile
          /\ document ∈ documentsForFile
          /\ ast syntax document = Some definitions
          /\ definition ∈ definitions
          /\ (isTypeSystemDefinitionNode syntax definition = true
              \/ isTypeSystemExtensionNode syntax definition = true).
Proof.
  intros Henum definition. unfold typeSystemDefinitionsAndExtensions.
  rewrite elem_of_typeSystemNodesOf. unfold isTypeSystemNode. split.
  - intros (document & definitions & Hin & Hast & Hdef & Htype).
    apply (proj1 (documents_indexed entries p Henum _))
      in Hin as (uri & documentsForFile & Hlookup & Hin).
    exists uri, documentsForFile, document, definitions.
    repeat split; try done. by apply orb_true_iff.
  - intros (uri & documentsForFile & document & definitions
            & Hlookup & Hin & Hast & Hdef & Htype).
    exists document, definitions. repeat split; try done.
    + apply (documents_indexed entries p Henum).
      by exists uri, documentsForFile.
    + by apply orb_true_iff.
Qed.

End AccessorCoverage.

(** X13.  The getter [engine] returns a client exactly when the
    configuration has a non-empty API key, and the client then carries
    that key and the configured endpoint; with no key or an empty one it
    throws [Unable to find ENGINE_API_KEY]. *)
Theorem engine_requires_api_key config :
  (forall client,
     engine (newEngineClient config) = inr client
     <-> exists key,
           apiKey config = Some key /\ key <> EmptyString
           /\ client = mkApolloEngineClient key (endpoint config))
  /\ (engine (newEngineClient config) = inl "Unable to find ENGINE_API_KEY"
      <-> apiKey config = None \/ apiKey config = Some EmptyString).
Proof.
  unfold engine, newEngineClient.
  destruct (apiKey config) as [key|]; simpl.
  - destruct (String.eqb_spec key EmptyString) as [->|Hkey]; simpl; split.
    + intros client. split; [done|]. by intros (key & [= <-] & ? & _).
    + split; [by right|done].
    + intros client. split.
      * intros [= <-]. by exists key.
      * by intros (key' & [= <-] & _ & ->).
    + split; [done|]. intros [?|[= ?]]; done.
  - split.
    + intros client. split; [done|]. by intros (key & ? & _).
    + split; [by left|done].
Qed.

(** * Collaborators that throw *)

Section ThrowingCollaborators.

Context {GraphQLDocument : Type}.
Variable world : @World GraphQLDocument.
Variable self : @Subclass GraphQLDocument.
Variable collaborators : Collaborators.
Implicit Types p q : @Project GraphQLDocument.

Local Abbreviation reached evs :=
  (Throwing.run world self collaborators evs construct).

(** ** Agreement with the definitions in which every call returns *)

Lemma removeGraphQLDocumentsFor_returns uri p :
  handlerReturns collaborators ->
  Throwing.removeGraphQLDocumentsFor collaborators uri p
  = (removeGraphQLDocumentsFor uri p, Normal).
Proof.
  intros Hreturns.
  unfold Throwing.removeGraphQLDocumentsFor, removeGraphQLDocumentsFor.
  destruct (documentsByFile p !! uri); [|done]. simpl.
  destruct (_onDiagnostics p) as [handler|]; [|done].
  by rewrite Hreturns.
Qed.

Lemma documentDidChange_returns document p :
  handlerReturns collaborators ->
  Throwing.documentDidChange world collaborators document p
  = (documentDidChange world document p, Normal).
Proof.
  intros Hreturns. unfold Throwing.documentDidChange, documentDidChange.
  destruct (extractGraphQLDocuments world document); [done|].
  by apply removeGraphQLDocumentsFor_returns.
Qed.

Lemma fileDidChange_returns uri p :
  handlerReturns collaborators ->
  Throwing.fileDidChange world collaborators uri p = fileDidChange world uri p.
Proof.
  intros Hreturns. unfold Throwing.fileDidChange, fileDidChange.
  destruct (fileAssociations !! _); [|done].
  destruct (readFileSync _ _); [done|].
  by rewrite documentDidChange_returns.
Qed.

Lemma scanLoop_returns files p :
  handlerReturns collaborators ->
  Throwing.scanLoop world collaborators files p = scanLoop world files p.
Proof.
  intros Hreturns. revert p.
  induction files as [|filePath files IH]; intros p; simpl; [done|].
  destruct (documentsByFile p !! _); [apply IH|].
  by rewrite fileDidChange_returns, IH.
Qed.

Lemma initSettled_returns subtasks p :
  getDisplayName collaborators = inr (displayName self) ->
  (forall error, stringOfError collaborators error = inr error) ->
  (forall message, showError collaborators message = Normal) ->
  Throwing.initSettled collaborators subtasks p = initSettled self subtasks p.
Proof.
  intros Hname Htext Hshow. unfold Throwing.initSettled, initSettled.
  destruct (readyPromise p); [|done..].
  destruct (Promise_all subtasks) as [|error]; simpl; [done|].
  unfold Throwing.onInitializeError. rewrite Hname, Htext, Hshow. done.
Qed.

(** When every collaborator returns, the events do what they do in the
    definitions that take this for granted, and every call returns. *)
Lemma step_returns ev p :
  handlerReturns collaborators ->
  getDisplayName collaborators = inr (displayName self) ->
  (forall error, stringOfError collaborators error = inr error) ->
  (forall message, showError collaborators message = Normal) ->
  Throwing.step world self collaborators ev p = (step world self ev p, Normal).
Proof.
  intros Hreturns Hname Htext Hshow. destruct ev; simpl; try done.
  - by rewrite initSettled_returns.
  - by rewrite fileDidChange_returns.
  - by apply removeGraphQLDocumentsFor_returns.
  - by apply documentDidChange_returns.
  - unfold Throwing.scanAllIncludedFiles, scanAllIncludedFiles.
    by rewrite Hname, scanLoop_returns.
Qed.

Lemma run_returns evs p :
  handlerReturns collaborators ->
  getDisplayName collaborators = inr (displayName self) ->
  (forall error, stringOfError collaborators error = inr error) ->
  (forall message, showError collaborators message = Normal) ->
  Throwing.run world self collaborators evs p = run world self evs p.
Proof.
  intros Hreturns Hname Htext Hshow. revert p.
  induction evs as [|ev evs IH]; intros p; simpl; [done|].
  by rewrite step_returns, IH.
Qed.

(** ** What the events are made of *)

Lemma syncSteps_throwing_remove uri p :
  syncSteps p (Throwing.removeGraphQLDocumentsFor collaborators uri p).1.
Proof.
  unfold Throwing.removeGraphQLDocumentsFor.
  destruct (documentsByFile p !! uri); [|constructor].
  apply (syncSteps_documents (delete uri (documentsByFile p))). simpl.
  destruct (_onDiagnostics p) as [handler|]; simpl.
  - apply (syncSteps_emit (PublishDiagnostics handler uri)); [done..|].
    destruct (publish collaborators handler uri); simpl.
    + apply syncSteps_invalidate. constructor.
    + constructor.
  - apply syncSteps_invalidate. constructor.
Qed.

Lemma syncSteps_throwing_documentDidChange document p :
  syncSteps p (Throwing.documentDidChange world collaborators document p).1.
Proof.
  unfold Throwing.documentDidChange.
  destruct (extractGraphQLDocuments _ _) as [documents|]; simpl.
  - apply (syncSteps_documents
             (<[TextDocument.uri document := documents]> (documentsByFile p))).
    apply syncSteps_invalidate. constructor.
  - apply syncSteps_throwing_remove.
Qed.

Lemma syncSteps_throwing_fileDidChange uri p :
  syncSteps p (Throwing.fileDidChange world collaborators uri p).
Proof.
  unfold Throwing.fileDidChange.
  destruct (fileAssociations !! _) as [languageId|]; [|constructor].
  destruct (readFileSync _ _) as [error|contents].
  - apply (syncSteps_emit (ConsoleError error)); [done..|]. constructor.
  - pose proof (syncSteps_throwing_documentDidChange
                  (TextDocument.create uri languageId (-1) contents) p)
      as Hsteps.
    destruct (Throwing.documentDidChange _ _ _ _) as [p' [|error]];
      simpl in *; [done|].
    eapply syncSteps_trans; [exact Hsteps|].
    apply (syncSteps_emit (ConsoleError error)); [done..|]. constructor.
Qed.

Lemma syncSteps_throwing_scanLoop files p :
  syncSteps p (Throwing.scanLoop world collaborators files p).1.
Proof.
  revert p. induction files as [|filePath files IH]; intros p; simpl.
  { constructor. }
  destruct (documentsByFile p !! _); [apply IH|].
  specialize (IH (Throwing.fileDidChange world collaborators
                    (fileUri world filePath) p)).
  destruct (Throwing.scanLoop _ _ _ _) as [p' calls]. simpl in *.
  eapply syncSteps_trans; [apply syncSteps_throwing_fileDidChange|done].
Qed.

Lemma syncSteps_throwing_initSettled subtasks p :
  syncSteps p (Throwing.initSettled collaborators subtasks p).
Proof.
  unfold Throwing.initSettled. destruct (readyPromise p); [|constructor..].
  destruct (Promise_all subtasks) as [|error]; simpl.
  - apply syncSteps_ready, syncSteps_invalidate.
    apply (syncSteps_promise Fulfilled). constructor.
  - unfold Throwing.onInitializeError.
    apply (syncSteps_emit (ConsoleError error)); [done..|].
    destruct (getDisplayName collaborators) as [thrown|name].
    { apply (syncSteps_promise (Rejected thrown)). constructor. }
    destruct (stringOfError collaborators error) as [thrown|text].
    { apply (syncSteps_promise (Rejected thrown)). constructor. }
    apply (syncSteps_emit
             (LoadingShowError (Throwing.initializeErrorMessage name text)));
      [done..|].
    destruct (showError collaborators _) as [|thrown].
    + apply (syncSteps_promise Fulfilled). constructor.
    + apply (syncSteps_promise (Rejected thrown)). constructor.
Qed.

Lemma syncSteps_throwing_step ev p :
  isTimerFired ev = false ->
  syncSteps p (Throwing.step world self collaborators ev p).1.
Proof.
  intros Hev. destruct ev; simpl; try done.
  - apply syncSteps_throwing_initSettled.
  - apply (syncSteps_handler (Some handler)). constructor.
  - apply syncSteps_throwing_fileDidChange.
  - apply syncSteps_throwing_remove.
  - apply syncSteps_throwing_documentDidChange.
  - unfold Throwing.scanAllIncludedFiles.
    destruct (getDisplayName collaborators) as [thrown|name]; simpl.
    { constructor. }
    eapply syncSteps_trans;
      [apply (syncSteps_throwing_scanLoop (allFiles world))|].
    apply (syncSteps_emit (LoadingHandle ("Loading queries for " +:+ name)));
      [done..|]. constructor.
  - apply syncSteps_invalidate. constructor.
Qed.

Lemma syncSteps_effects p q : syncSteps p q -> effects p `prefix_of` effects q.
Proof.
  induction 1 as [| | | | |e p q _ _ _ IH|p q _ IH]; try done.
  - etrans; [|exact IH]. simpl. by apply prefix_app_r.
  - by rewrite effects_invalidate in IH.
Qed.

Lemma syncSteps_consistent p q :
  syncSteps p q -> schedulerConsistent p -> schedulerConsistent q.
Proof.
  induction 1 as [|m p q _ IH|h p q _ IH|p q _ IH|s p q _ IH
                  |e p q _ _ _ IH|p q _ IH]; intros Hp; try done.
  - apply IH. revert Hp. by apply schedulerConsistent_same.
  - apply IH. revert Hp. by apply schedulerConsistent_same.
  - apply IH. destruct Hp as [Htimers _]. by split.
  - apply IH. revert Hp. by apply schedulerConsistent_same.
  - apply IH. revert Hp. by apply schedulerConsistent_same.
  - by apply IH, invalidate_consistent.
Qed.

Lemma throwing_run_app evs evs' p :
  Throwing.run world self collaborators (evs ++ evs') p
  = Throwing.run world self collaborators evs'
      (Throwing.run world self collaborators evs p).
Proof.
  revert p. induction evs as [|ev evs IH]; intros p; simpl; [done|]. apply IH.
Qed.

Lemma effects_throwing_step ev p :
  effects p `prefix_of` effects (Throwing.step world self collaborators ev p).1.
Proof.
  destruct (isTimerFired ev) eqn:Hev.
  - destruct ev; try done. apply effects_runTimer.
  - by apply syncSteps_effects, syncSteps_throwing_step.
Qed.

Lemma effects_throwing_run evs p :
  effects p `prefix_of` effects (Throwing.run world self collaborators evs p).
Proof.
  revert p. induction evs as [|ev evs IH]; intros p; simpl; [done|].
  etrans; [apply (effects_throwing_step ev)|apply IH].
Qed.

(** The scheduler stays consistent as long as no [validate] throws,
    whatever the other collaborators do. *)
Lemma consistent_throwing_reachable evs :
  hasThrown (reached evs) = false -> schedulerConsistent (reached evs).
Proof.
  induction evs as [|ev evs IH] using rev_ind; [by split|].
  rewrite throwing_run_app. simpl. intros Hquiet.
  assert (hasThrown (reached evs) = false) as Hbefore.
  { destruct (hasThrown (reached evs)) eqn:Hthrown; [|done].
    rewrite <- Hquiet. symmetry. revert Hthrown.
    apply hasThrown_prefix, effects_throwing_step. }
  specialize (IH Hbefore).
  destruct (isTimerFired ev) eqn:Hev.
  - destruct ev; try done. simpl in *.
    destruct (consistent_runTimer self _ IH) as [?|Hthrown]; [done|].
    congruence.
  - apply (syncSteps_consistent (reached evs)); [|done].
    by apply syncSteps_throwing_step.
Qed.

(** ** Readiness and the promise *)

Lemma lifecycle_throwing_remove uri p :
  isReady (Throwing.removeGraphQLDocumentsFor collaborators uri p).1 = isReady p
  /\ readyPromise (Throwing.removeGraphQLDocumentsFor collaborators uri p).1
     = readyPromise p.
Proof.
  unfold Throwing.removeGraphQLDocumentsFor.
  destruct (documentsByFile p !! uri); [|done]. simpl.
  destruct (_onDiagnostics p) as [handler|]; simpl.
  - destruct (publish collaborators handler uri); simpl; [|done].
    by rewrite isReady_invalidate, readyPromise_invalidate.
  - by rewrite isReady_invalidate, readyPromise_invalidate.
Qed.

Lemma lifecycle_throwing_documentDidChange document p :
  isReady (Throwing.documentDidChange world collaborators document p).1
  = isReady p
  /\ readyPromise (Throwing.documentDidChange world collaborators document p).1
     = readyPromise p.
Proof.
  unfold Throwing.documentDidChange.
  destruct (extractGraphQLDocuments _ _); simpl.
  - by rewrite isReady_invalidate, readyPromise_invalidate.
  - apply lifecycle_throwing_remove.
Qed.

Lemma lifecycle_throwing_fileDidChange uri p :
  isReady (Throwing.fileDidChange world collaborators uri p) = isReady p
  /\ readyPromise (Throwing.fileDidChange world collaborators uri p)
     = readyPromise p.
Proof.
  unfold Throwing.fileDidChange.
  destruct (fileAssociations !! _) as [languageId|]; [|done].
  destruct (readFileSync _ _) as [error|contents]; [done|].
  pose proof (lifecycle_throwing_documentDidChange
                (TextDocument.create uri languageId (-1) contents) p) as Hsame.
  by destruct (Throwing.documentDidChange _ _ _ _) as [p' [|error]].
Qed.

Lemma lifecycle_throwing_scanLoop files p :
  isReady (Throwing.scanLoop world collaborators files p).1 = isReady p
  /\ readyPromise (Throwing.scanLoop world collaborators files p).1
     = readyPromise p.
Proof.
  revert p. induction files as [|filePath files IH]; intros p; simpl; [done|].
  destruct (documentsByFile p !! _); [apply IH|].
  specialize (IH (Throwing.fileDidChange world collaborators
                    (fileUri world filePath) p)).
  destruct (lifecycle_throwing_fileDidChange (fileUri world filePath) p)
    as [Hready Hpromise].
  destruct (Throwing.scanLoop _ _ _ _) as [p' calls]. simpl in *.
  destruct IH as [-> ->]. by split.
Qed.

Lemma throwing_initSettled_settled subtasks p :
  readyPromise p <> Pending ->
  Throwing.initSettled collaborators subtasks p = p.
Proof.
  intros Hsettled. unfold Throwing.initSettled. by destruct (readyPromise p).
Qed.

Lemma throwing_initSettled_resolved subtasks p :
  readyPromise p = Pending -> Promise_all subtasks = Resolved ->
  Throwing.initSettled collaborators subtasks p
  = set_readyPromise Fulfilled (invalidate (set_isReady true p)).
Proof.
  intros Hpending Hall. unfold Throwing.initSettled.
  by rewrite Hpending, Hall.
Qed.

(** After a rejection the promise settles as the [catch] callback
    completes, and readiness is as before. *)
Lemma throwing_initSettled_rejected subtasks error p :
  readyPromise p = Pending -> Promise_all subtasks = RejectedWith error ->
  readyPromise (Throwing.initSettled collaborators subtasks p)
  = match (Throwing.onInitializeError collaborators error p).2 with
    | Normal => Fulfilled
    | Throw thrown => Rejected thrown
    end
  /\ isReady (Throwing.initSettled collaborators subtasks p) = isReady p
  /\ effects (Throwing.onInitializeError collaborators error p).1
     `prefix_of` effects (Throwing.initSettled collaborators subtasks p).
Proof.
  intros Hpending Hall. unfold Throwing.initSettled.
  rewrite Hpending, Hall. simpl.
  destruct (Throwing.onInitializeError collaborators error p)
    as [p' [|thrown]] eqn:Hcallback; simpl.
  - split; [done|]. split; [|done].
    apply (f_equal fst) in Hcallback. simpl in Hcallback. subst p'.
    unfold Throwing.onInitializeError.
    destruct (getDisplayName collaborators); [done|].
    by destruct (stringOfError collaborators error).
  - split; [done|]. split; [|done].
    apply (f_equal fst) in Hcallback. simpl in Hcallback. subst p'.
    unfold Throwing.onInitializeError.
    destruct (getDisplayName collaborators); [done|].
    by destruct (stringOfError collaborators error).
Qed.

Lemma lifecycle_throwing_step ev p :
  (isReady (Throwing.step world self collaborators ev p).1 = isReady p
   /\ readyPromise (Throwing.step world self collaborators ev p).1
      = readyPromise p)
  \/ (exists subtasks, ev = InitSettled subtasks) /\ readyPromise p = Pending.
Proof.
  destruct ev; simpl.
  - destruct (readyPromise p) eqn:Hpromise.
    + right. eauto.
    + left. by rewrite throwing_initSettled_settled by congruence.
    + left. by rewrite throwing_initSettled_settled by congruence.
  - left. by rewrite isReady_runTimer, readyPromise_runTimer.
  - by left.
  - left. apply lifecycle_throwing_fileDidChange.
  - left. apply lifecycle_throwing_remove.
  - left. apply lifecycle_throwing_documentDidChange.
  - left. unfold Throwing.scanAllIncludedFiles.
    destruct (getDisplayName collaborators); simpl; [done|].
    apply (lifecycle_throwing_scanLoop (allFiles world)).
  - left. by rewrite isReady_invalidate, readyPromise_invalidate.
Qed.

Lemma throwing_initSettled_not_pending subtasks p :
  readyPromise (Throwing.initSettled collaborators subtasks p) <> Pending.
Proof.
  unfold Throwing.initSettled. destruct (readyPromise p) eqn:Hpromise.
  - destruct (then_ _ _ _) as [p1 s1]. destruct (catch_ _ _ _) as [p2 s2].
    simpl. by destruct s2.
  - congruence.
  - congruence.
Qed.

(** While the initialization is pending the project is not ready. *)
Lemma throwing_pending_not_ready evs :
  readyPromise (reached evs) = Pending -> isReady (reached evs) = false.
Proof.
  induction evs as [|ev evs IH] using rev_ind; [done|].
  rewrite throwing_run_app. simpl.
  destruct (lifecycle_throwing_step ev (reached evs))
    as [[-> ->]|[[subtasks ->] _]]; [done|].
  simpl. intros Hpending. by apply throwing_initSettled_not_pending in Hpending.
Qed.

(** Once the promise has settled, readiness and the promise stay. *)
Lemma throwing_run_settled evs p :
  readyPromise p <> Pending ->
  isReady (Throwing.run world self collaborators evs p) = isReady p
  /\ readyPromise (Throwing.run world self collaborators evs p) = readyPromise p.
Proof.
  revert p. induction evs as [|ev evs IH]; intros p Hsettled; simpl; [done|].
  destruct (lifecycle_throwing_step ev p) as [[Hr Hp]|[_ Hpending]]; [|done].
  rewrite <- Hr, <- Hp. apply IH. by rewrite Hp.
Qed.

Lemma onInitializeError_reporting error p :
  reportingReturns collaborators ->
  exists name text,
    getDisplayName collaborators = inr name
    /\ stringOfError collaborators error = inr text
    /\ Throwing.onInitializeError collaborators error p
       = (emit (LoadingShowError (Throwing.initializeErrorMessage name text))
               (emit (ConsoleError error) p),
          Normal).
Proof.
  intros ([name Hname] & Htext & Hshow). destruct (Htext error) as [text Herror].
  exists name, text. split; [done|]. split; [done|].
  unfold Throwing.onInitializeError. by rewrite Hname, Herror, Hshow.
Qed.

Lemma throwing_never_rejected evs :
  reportingReturns collaborators ->
  forall thrown, readyPromise (reached evs) <> Rejected thrown.
Proof.
  intros Hreporting.
  induction evs as [|ev evs IH] using rev_ind; [done|].
  rewrite throwing_run_app. simpl.
  destruct (lifecycle_throwing_step ev (reached evs))
    as [[_ ->]|[[subtasks ->] Hpending]]; [done|].
  simpl. intros thrown.
  destruct (Promise_all subtasks) as [|error] eqn:Hall.
  - by rewrite (throwing_initSettled_resolved subtasks _ Hpending Hall).
  - destruct (throwing_initSettled_rejected subtasks error _ Hpending Hall)
      as (-> & _).
    destruct (onInitializeError_reporting error (reached evs) Hreporting)
      as (name & text & _ & _ & ->). done.
Qed.

(** What a failed initialization leaves behind when the [catch] callback
    returns, whatever the diagnostics handler does later. *)
Lemma throwing_initSettled_failure evs subtasks evs' error :
  reportingReturns collaborators ->
  readyPromise (reached evs) = Pending ->
  Promise_all subtasks = RejectedWith error ->
  exists name text,
    getDisplayName collaborators = inr name
    /\ stringOfError collaborators error = inr text
    /\ readyPromise
         (Throwing.run world self collaborators evs'
            (Throwing.initSettled collaborators subtasks (reached evs)))
       = Fulfilled
    /\ isReady
         (Throwing.run world self collaborators evs'
            (Throwing.initSettled collaborators subtasks (reached evs)))
       = false
    /\ ConsoleError error
       ∈ effects
           (Throwing.run world self collaborators evs'
              (Throwing.initSettled collaborators subtasks (reached evs)))
    /\ LoadingShowError (Throwing.initializeErrorMessage name text)
       ∈ effects
           (Throwing.run world self collaborators evs'
              (Throwing.initSettled collaborators subtasks (reached evs))).
Proof.
  intros Hreporting Hpending Hall.
  destruct (onInitializeError_reporting error (reached evs) Hreporting)
    as (name & text & Hname & Htext & Hcallback).
  exists name, text. split; [done|]. split; [done|].
  destruct (throwing_initSettled_rejected subtasks error _ Hpending Hall)
    as (Hpromise & Hready & Heffects).
  rewrite Hcallback in Hpromise, Heffects. simpl in Hpromise, Heffects.
  destruct (throwing_run_settled evs'
              (Throwing.initSettled collaborators subtasks (reached evs)))
    as [Hready' Hpromise'].
  { by rewrite Hpromise. }
  rewrite Hready', Hpromise', Hpromise, Hready.
  split; [done|]. split; [by apply throwing_pending_not_ready|].
  split.
  - eapply elem_of_prefix; [|apply effects_throwing_run].
    eapply elem_of_prefix; [|exact Heffects]. set_solver.
  - eapply elem_of_prefix; [|apply effects_throwing_run].
    eapply elem_of_prefix; [|exact Heffects]. set_solver.
Qed.

(** C10, amended.  When all subtasks resolve, [whenReady] is fulfilled.
    Provided everything the [catch] callback calls returns (the
    [displayName] getter, the conversion of the error to a string and
    [loadingHandler.showError]), [whenReady] is never rejected, whatever
    the diagnostics handler does: it is fulfilled when the initialization
    settles, with whatever outcome; after a failed subtask it is fulfilled
    all the same, while [isReady] stays false for good and the error has
    been logged and shown. *)
Theorem whenReady_fulfills_when_reporting_returns :
  (forall subtasks p,
     whenReady p = Pending ->
     Forall (fun s => s = Resolved) subtasks ->
     whenReady (Throwing.initSettled collaborators subtasks p) = Fulfilled)
  /\ (reportingReturns collaborators ->
      (forall evs thrown, whenReady (reached evs) <> Rejected thrown)
      /\ (forall subtasks p,
            whenReady p = Pending ->
            whenReady (Throwing.initSettled collaborators subtasks p)
            = Fulfilled)
      /\ (forall evs subtasks evs',
            whenReady (reached evs) = Pending ->
            (exists error, RejectedWith error ∈ subtasks) ->
            whenReady
              (Throwing.run world self collaborators evs'
                 (Throwing.initSettled collaborators subtasks (reached evs)))
            = Fulfilled
            /\ isReady
                 (Throwing.run world self collaborators evs'
                    (Throwing.initSettled collaborators subtasks (reached evs)))
               = false
            /\ exists error name text,
                 RejectedWith error ∈ subtasks
                 /\ getDisplayName collaborators = inr name
                 /\ stringOfError collaborators error = inr text
                 /\ ConsoleError error
                    ∈ effects
                        (Throwing.run world self collaborators evs'
                           (Throwing.initSettled collaborators subtasks
                              (reached evs)))
                 /\ LoadingShowError
                      (Throwing.initializeErrorMessage name text)
                    ∈ effects
                        (Throwing.run world self collaborators evs'
                           (Throwing.initSettled collaborators subtasks
                              (reached evs))))).
Proof.
  unfold whenReady. split.
  { intros subtasks p Hpending Hall. apply Promise_all_resolved in Hall.
    by rewrite (throwing_initSettled_resolved subtasks p Hpending Hall). }
  intros Hreporting. split; [|split].
  - intros evs. by apply throwing_never_rejected.
  - intros subtasks p Hpending.
    destruct (Promise_all subtasks) as [|error] eqn:Hall.
    + by rewrite (throwing_initSettled_resolved subtasks p Hpending Hall).
    + destruct (throwing_initSettled_rejected subtasks error p Hpending Hall)
        as (-> & _).
      by destruct (onInitializeError_reporting error p Hreporting)
        as (name & text & _ & _ & ->).
  - intros evs subtasks evs' Hpending Hfail.
    destruct (Promise_all_rejected subtasks Hfail) as (error & Hin & Hall).
    destruct (throwing_initSettled_failure evs subtasks evs' error
                Hreporting Hpending Hall)
      as (name & text & Hname & Htext & Hpromise & Hready & Hlog & Hshow).
    split; [done|]. split; [done|]. by exists error, name, text.
Qed.

(** ** Index changes and validation *)

Lemma documentsByFile_throwing_initSettled subtasks p :
  documentsByFile (Throwing.initSettled collaborators subtasks p)
  = documentsByFile p.
Proof.
  unfold Throwing.initSettled. destruct (readyPromise p); [|done..].
  destruct (Promise_all subtasks) as [|error]; simpl.
  { by rewrite documentsByFile_invalidate. }
  unfold Throwing.onInitializeError.
  destruct (getDisplayName collaborators); [done|].
  destruct (stringOfError collaborators error); [done|].
  by destruct (showError collaborators _).
Qed.

(** With a diagnostics handler that returns, a method call on a ready
    project leaves the index as it is or leaves the pending flag set. *)
Lemma changed_throwing_step ev p :
  handlerReturns collaborators ->
  isReady p = true -> isTimerFired ev = false ->
  documentsByFile (Throwing.step world self collaborators ev p).1
  = documentsByFile p
  \/ needsValidation (Throwing.step world self collaborators ev p).1 = true.
Proof.
  intros Hreturns Hready Hev. destruct ev; simpl; try done.
  - left. apply documentsByFile_throwing_initSettled.
  - by left.
  - rewrite fileDidChange_returns by done. by apply changed_fileDidChange.
  - unfold Throwing.fileWasDeleted.
    rewrite removeGraphQLDocumentsFor_returns by done.
    by apply changed_removeGraphQLDocumentsFor.
  - rewrite documentDidChange_returns by done.
    by apply changed_documentDidChange.
  - unfold Throwing.scanAllIncludedFiles.
    destruct (getDisplayName collaborators); simpl; [by left|].
    rewrite scanLoop_returns by done.
    by apply (changed_scanLoop world (allFiles world)).
  - left. apply documentsByFile_invalidate.
Qed.

(** X5.  On a ready project whose diagnostics handler returns from its
    calls, no change of the index goes without a validation: if a method
    call changes [documentsByFile], the pending flag is set when it
    returns, and (no validation having thrown) the next timer phase calls
    [validate] exactly once. *)
Theorem index_change_is_validated_when_handler_returns evs ev :
  handlerReturns collaborators ->
  hasThrown (reached evs) = false ->
  isReady (reached evs) = true ->
  isTimerFired ev = false ->
  documentsByFile (Throwing.step world self collaborators ev (reached evs)).1
  <> documentsByFile (reached evs) ->
  needsValidation (Throwing.step world self collaborators ev (reached evs)).1
  = true
  /\ validations
       (drainTimers self
          (Throwing.step world self collaborators ev (reached evs)).1)
     = validations (reached evs) + 1.
Proof.
  intros Hreturns Hquiet Hready Hev Hchanged.
  pose proof (syncSteps_throwing_step ev (reached evs) Hev) as Hsteps.
  set (q := (Throwing.step world self collaborators ev (reached evs)).1) in *.
  assert (needsValidation q = true) as Hflag.
  { by destruct (changed_throwing_step ev (reached evs) Hreturns Hready Hev). }
  split; [done|].
  assert (q = reached (evs ++ [ev])) as Hq.
  { by rewrite throwing_run_app. }
  assert (hasThrown q = false) as Hquiet'.
  { by rewrite (syncSteps_hasThrown _ _ Hsteps). }
  rewrite Hq in Hquiet'.
  destruct (consistent_throwing_reachable (evs ++ [ev]) Hquiet')
    as [Htimers Hready'].
  rewrite <- Hq in Htimers, Hready'. rewrite Hflag in Htimers.
  destruct (drainTimers_pending self q (Hready' Hflag) Hflag Htimers)
    as [Hcount _].
  by rewrite Hcount, (syncSteps_validations _ _ Hsteps).
Qed.

End ThrowingCollaborators.

(** * The further properties on the sample project *)

Section CoverageExamples.

Lemma validate_never_before_ready_witness :
  readyPromise (run Sample.world Sample.project
                    [CallFileDidChange "/a.graphql"] construct) = Pending
  /\ validations
       (run Sample.world Sample.project
            [CallInvalidate; TimerFired; CallFileDidChange "/b.graphql";
             TimerFired]
            (initSettled Sample.project [RejectedWith "schema unavailable"]
               (run Sample.world Sample.project
                    [CallFileDidChange "/a.graphql"] construct))) = 0.
Proof.
  split; [reflexivity|].
  apply (proj2 (validate_never_before_ready Sample.world Sample.project)
               [CallFileDidChange "/a.graphql"]
               [RejectedWith "schema unavailable"]
               [CallInvalidate; TimerFired; CallFileDidChange "/b.graphql";
                TimerFired]);
    [reflexivity|].
  exists "schema unavailable". apply list_elem_of_here.
Defined.

Lemma validate_only_in_timer_turns_witness :
  isTimerFired (CallFileDidChange "/a.graphql") = false
  /\ validations
       (step Sample.world Sample.project (CallFileDidChange "/a.graphql")
             (run Sample.world Sample.project [InitSettled []] construct))
     = validations (run Sample.world Sample.project [InitSettled []] construct).
Proof.
  split; [reflexivity|].
  exact (proj1 (validate_only_in_timer_turns Sample.world Sample.project []
                  (CallFileDidChange "/a.graphql")
                  (run Sample.world Sample.project [InitSettled []] construct))
               eq_refl).
Defined.

Lemma at_most_one_timer_queued_witness :
  timers (run Sample.world Sample.throwingProject
              [InitSettled []; TimerFired; CallInvalidate;
               CallFileDidChange "/a.graphql"] construct) = []
  /\ length
       (timers (run Sample.world Sample.project
                    [InitSettled []; CallInvalidate;
                     CallFileDidChange "/a.graphql"] construct)) <= 1
  /\ needsValidation
       (run Sample.world Sample.project
            [InitSettled []; CallInvalidate; CallFileDidChange "/a.graphql"]
            construct) = true.
Proof.
  split; [reflexivity|].
  destruct (at_most_one_timer_queued Sample.world Sample.project
              [InitSettled []; CallInvalidate; CallFileDidChange "/a.graphql"])
    as [Hlength Hqueued].
  split; [exact Hlength|].
  apply Hqueued. discriminate.
Defined.

Lemma storm_validates_at_most_once_witness :
  hasThrown (run Sample.world Sample.project
                 [InitSettled [Resolved]; TimerFired] construct) = false
  /\ validations
       (drainTimers Sample.project
          (run Sample.world Sample.project
               [CallFileDidChange "/a.graphql"; CallFileDidChange "/b.graphql";
                CallFileWasDeleted "/a.graphql"; CallScanAllIncludedFiles]
               (run Sample.world Sample.project
                    [InitSettled [Resolved]; TimerFired] construct)))
     <= validations (run Sample.world Sample.project
                         [InitSettled [Resolved]; TimerFired] construct) + 1.
Proof.
  split; [reflexivity|].
  apply (storm_validates_at_most_once Sample.world Sample.project
           [InitSettled [Resolved]; TimerFired]
           [CallFileDidChange "/a.graphql"; CallFileDidChange "/b.graphql";
            CallFileWasDeleted "/a.graphql"; CallScanAllIncludedFiles]);
    [reflexivity|].
  repeat constructor.
Defined.

Lemma last_write_wins_witness :
  written Sample.world "/a.graphql" (CallFileWasDeleted "/a.graphql")
  = Some None
  /\ documentsByFile
       (run Sample.world Sample.project
            ([CallFileDidChange "/a.graphql"]
             ++ CallFileWasDeleted "/a.graphql"
             :: [CallFileDidChange "/b.graphql"; TimerFired;
                 CallFileDidChange "/a.txt"])
            construct) !! "/a.graphql" = None.
Proof.
  split; [reflexivity|].
  apply (last_write_wins Sample.world Sample.project "/a.graphql"
           [CallFileDidChange "/a.graphql"] (CallFileWasDeleted "/a.graphql")
           [CallFileDidChange "/b.graphql"; TimerFired;
            CallFileDidChange "/a.txt"]);
    [reflexivity|].
  repeat constructor.
Defined.

Lemma scanAllIncludedFiles_keeps_entries_witness :
  is_Some
    (documentsByFile
       (step Sample.world Sample.project
             (CallDocumentDidChange
                (TextDocument.create "/b.graphql" "graphql" 3 "query { you }"))
             construct) !! "/b.graphql")
  /\ documentsByFile
       (scanAllIncludedFiles Sample.world Sample.project
          (step Sample.world Sample.project
                (CallDocumentDidChange
                   (TextDocument.create "/b.graphql" "graphql" 3
                                        "query { you }"))
                construct)) !! "/b.graphql"
     = Some [Sample.mkDoc 0 0].
Proof.
  assert (is_Some
            (documentsByFile
               (step Sample.world Sample.project
                     (CallDocumentDidChange
                        (TextDocument.create "/b.graphql" "graphql" 3
                                             "query { you }"))
                     construct) !! "/b.graphql")) as Hindexed.
  { by eexists. }
  split; [exact Hindexed|].
  rewrite (scanAllIncludedFiles_keeps_entries Sample.world Sample.project
             "/b.graphql" _ Hindexed).
  reflexivity.
Defined.

Lemma scanAllIncludedFiles_indexes_files_witness :
  "/a.graphql" ∈ allFiles Sample.world
  /\ yieldsDocuments Sample.world (fileUri Sample.world "/a.graphql") = true
  /\ is_Some
       (documentsByFile
          (scanAllIncludedFiles Sample.world Sample.project construct)
          !! fileUri Sample.world "/a.graphql").
Proof.
  assert ("/a.graphql" ∈ allFiles Sample.world) as Hin.
  { apply list_elem_of_here. }
  split; [exact Hin|]. split; [reflexivity|].
  apply (proj2 (scanAllIncludedFiles_indexes_files Sample.world Sample.project
                  "/a.graphql" construct Hin)).
  right. reflexivity.
Defined.

Lemma clearAllDiagnostics_once_per_entry_witness :
  _onDiagnostics
    (run Sample.world Sample.project
         [CallOnDiagnostics 7; CallFileDidChange "/a.graphql"] construct)
  = Some 7
  /\ countPublish 7 "/a.graphql"
       (effects
          (clearAllDiagnostics
             (map_to_list
                (documentsByFile
                   (run Sample.world Sample.project
                        [CallOnDiagnostics 7; CallFileDidChange "/a.graphql"]
                        construct)))
             (run Sample.world Sample.project
                  [CallOnDiagnostics 7; CallFileDidChange "/a.graphql"]
                  construct)))
     = 1.
Proof.
  split; [reflexivity|].
  destruct (clearAllDiagnostics_once_per_entry
              (map_to_list
                 (documentsByFile
                    (run Sample.world Sample.project
                         [CallOnDiagnostics 7; CallFileDidChange "/a.graphql"]
                         construct)))
              (run Sample.world Sample.project
                   [CallOnDiagnostics 7; CallFileDidChange "/a.graphql"]
                   construct)
              (enumerates_map_to_list _)) as (_ & Hcount & _).
  rewrite (Hcount 7 7 "/a.graphql" eq_refl).
  rewrite decide_True; [reflexivity|]. split; [reflexivity|]. by eexists.
Defined.

Lemma documents_are_the_indexed_documents_witness :
  documentsByFile
    (run Sample.world Sample.project [CallFileDidChange "/a.graphql"] construct)
    !! "/a.graphql" = Some [Sample.mkDoc 0 0]
  /\ Sample.mkDoc 0 0
     ∈ documents
         (map_to_list
            (documentsByFile
               (run Sample.world Sample.project
                    [CallFileDidChange "/a.graphql"] construct))).
Proof.
  split; [reflexivity|].
  apply (proj1 (documents_are_the_indexed_documents
                  (map_to_list
                     (documentsByFile
                        (run Sample.world Sample.project
                             [CallFileDidChange "/a.graphql"] construct)))
                  (run Sample.world Sample.project
                       [CallFileDidChange "/a.graphql"] construct)
                  (enumerates_map_to_list _))).
  exists "/a.graphql", [Sample.mkDoc 0 0]. split; [reflexivity|].
  apply list_elem_of_here.
Defined.

Lemma typeSystemDefinitionsAndExtensions_exact_witness :
  3 ∈ typeSystemDefinitionsAndExtensions SampleSyntax.syntax
        (map_to_list
           (documentsByFile
              (set_documentsByFile
                 {[ "/schema.graphql" := [[2; 3; 5]; []; [4; 7]] ]}
                 construct)))
  /\ ~ 5 ∈ typeSystemDefinitionsAndExtensions SampleSyntax.syntax
            (map_to_list
               (documentsByFile
                  (set_documentsByFile
                     {[ "/schema.graphql" := [[2; 3; 5]; []; [4; 7]] ]}
                     construct))).
Proof.
  pose proof (typeSystemDefinitionsAndExtensions_exact SampleSyntax.syntax
                (map_to_list
                   (documentsByFile
                      (set_documentsByFile
                         {[ "/schema.graphql" := [[2; 3; 5]; []; [4; 7]] ]}
                         construct)))
                (set_documentsByFile
                   {[ "/schema.graphql" := [[2; 3; 5]; []; [4; 7]] ]}
                   construct)
                (enumerates_map_to_list _)) as Hexact.
  split.
  - apply Hexact.
    exists "/schema.graphql", [[2; 3; 5]; []; [4; 7]], [2; 3; 5], [2; 3; 5].
    split; [reflexivity|]. split; [apply list_elem_of_here|].
    split; [reflexivity|].
    split; [apply list_elem_of_further, list_elem_of_here|].
    right. reflexivity.
  - intros Hin. apply Hexact in Hin
      as (uri & documentsForFile & document & definitions
          & _ & _ & _ & _ & [Hdefinition|Hextension]); discriminate.
Defined.

(** The scenario of a file that first yields documents and then none, on a
    ready project with a handler: no entry is left, the diagnostics are
    cleared once and the timer phase validates once. *)
Example change_then_empty :
  effects
    (drainTimers Sample.project
       (run Sample.world Sample.project
            [CallOnDiagnostics 7; InitSettled []; TimerFired;
             CallDocumentDidChange
               (TextDocument.create "/a.graphql" "graphql" 1 "query { me }");
             CallDocumentDidChange
               (TextDocument.create "/a.graphql" "plaintext" 2 "nothing")]
            construct))
  = [Validate; PublishDiagnostics 7 "/a.graphql"; Validate].
Proof. reflexivity. Qed.

End CoverageExamples.

(** * The sample project with collaborators that throw *)

Section ThrowingExamples.

Lemma sample_reportingReturns : reportingReturns SampleCollaborators.throwingHandler.
Proof.
  split; [by exists "sample"|]. split; [|done].
  intros error. by exists error.
Defined.

(** C10 as stated fails when the loading handler throws: a subtask
    rejects, the [catch] callback logs the error and calls [showError],
    which throws, and [whenReady] is rejected with what it threw. *)
Lemma whenReady_rejects_when_showError_throws :
  whenReady (@construct Sample.Doc) = Pending
  /\ whenReady
       (Throwing.initSettled SampleCollaborators.throwingLoadingHandler
          [Resolved; RejectedWith "schema unavailable"] (@construct Sample.Doc))
     = Rejected "connection closed"
  /\ effects
       (Throwing.initSettled SampleCollaborators.throwingLoadingHandler
          [Resolved; RejectedWith "schema unavailable"] (@construct Sample.Doc))
     = [ConsoleError "schema unavailable";
        LoadingShowError
          (Throwing.initializeErrorMessage "sample" "schema unavailable")].
Proof. by vm_compute. Qed.

(** The initialization fails on a project whose diagnostics handler
    throws but whose loading handler returns. *)
Lemma whenReady_fulfills_when_reporting_returns_witness :
  reportingReturns SampleCollaborators.throwingHandler
  /\ whenReady
       (Throwing.run Sample.world Sample.project
          SampleCollaborators.throwingHandler
          [CallFileDidChange "/a.graphql"] construct) = Pending
  /\ (exists error,
        RejectedWith error ∈ [Resolved; RejectedWith "schema unavailable"])
  /\ whenReady
       (Throwing.run Sample.world Sample.project
          SampleCollaborators.throwingHandler
          [CallFileWasDeleted "/a.graphql"; TimerFired]
          (Throwing.initSettled SampleCollaborators.throwingHandler
             [Resolved; RejectedWith "schema unavailable"]
             (Throwing.run Sample.world Sample.project
                SampleCollaborators.throwingHandler
                [CallFileDidChange "/a.graphql"] construct)))
     = Fulfilled.
Proof.
  assert (exists error,
            RejectedWith error ∈ [Resolved; RejectedWith "schema unavailable"])
    as Hfail.
  { exists "schema unavailable". apply list_elem_of_further, list_elem_of_here. }
  split; [exact sample_reportingReturns|]. split; [reflexivity|].
  split; [exact Hfail|].
  destruct (whenReady_fulfills_when_reporting_returns Sample.world
              Sample.project SampleCollaborators.throwingHandler)
    as [_ Hamended].
  destruct (Hamended sample_reportingReturns) as (_ & _ & Hfailure).
  exact (proj1 (Hfailure [CallFileDidChange "/a.graphql"]
                         [Resolved; RejectedWith "schema unavailable"]
                         [CallFileWasDeleted "/a.graphql"; TimerFired]
                         eq_refl Hfail)).
Defined.

Lemma index_change_is_validated_when_handler_returns_witness :
  handlerReturns SampleCollaborators.throwingLoadingHandler
  /\ isReady
       (Throwing.run Sample.world Sample.project
          SampleCollaborators.throwingLoadingHandler
          [CallOnDiagnostics 7; CallFileDidChange "/a.graphql";
           InitSettled [Resolved]; TimerFired] construct) = true
  /\ validations
       (drainTimers Sample.project
          (Throwing.step Sample.world Sample.project
             SampleCollaborators.throwingLoadingHandler
             (CallFileWasDeleted "/a.graphql")
             (Throwing.run Sample.world Sample.project
                SampleCollaborators.throwingLoadingHandler
                [CallOnDiagnostics 7; CallFileDidChange "/a.graphql";
                 InitSettled [Resolved]; TimerFired] construct)).1)
     = validations
         (Throwing.run Sample.world Sample.project
            SampleCollaborators.throwingLoadingHandler
            [CallOnDiagnostics 7; CallFileDidChange "/a.graphql";
             InitSettled [Resolved]; TimerFired] construct) + 1.
Proof.
  assert (handlerReturns SampleCollaborators.throwingLoadingHandler)
    as Hreturns.
  { intros handler uri. reflexivity. }
  split; [exact Hreturns|]. split; [reflexivity|].
  apply (index_change_is_validated_when_handler_returns Sample.world
           Sample.project SampleCollaborators.throwingLoadingHandler
           [CallOnDiagnostics 7; CallFileDidChange "/a.graphql";
            InitSettled [Resolved]; TimerFired]
           (CallFileWasDeleted "/a.graphql") Hreturns);
    [reflexivity..|].
  intros Hsame. apply (f_equal (fun m => m !! "/a.graphql")) in Hsame.
  vm_compute in Hsame. discriminate Hsame.
Defined.

(** With a diagnostics handler that throws, [fileDidChange] on an indexed
    file in which the extractor finds nothing removes the entry, logs the
    exception of the handler and returns with the pending flag unset: the
    timer phase does not validate. *)
Example fileDidChange_swallows_handler_exception :
  let p := Throwing.run Sample.world Sample.project
             SampleCollaborators.throwingHandler
             [CallOnDiagnostics 7; InitSettled []; TimerFired;
              CallDocumentDidChange
                (TextDocument.create "/a.js" "graphql" 1 "query { me }");
              TimerFired] construct in
  let q := Throwing.step Sample.world Sample.project
             SampleCollaborators.throwingHandler (CallFileDidChange "/a.js") p in
  isReady p = true
  /\ documentsByFile p !! "/a.js" = Some [Sample.mkDoc 0 0]
  /\ documentsByFile q.1 !! "/a.js" = None
  /\ q.2 = Normal
  /\ needsValidation q.1 = false
  /\ effects q.1
     = effects p ++ [PublishDiagnostics 7 "/a.js"; ConsoleError "handler failed"]
  /\ validations (drainTimers Sample.project q.1) = validations p.
Proof. by vm_compute. Qed.

(** Called directly, [fileWasDeleted] lets the exception of the handler
    through to its caller. *)
Example fileWasDeleted_throws_handler_exception :
  (Throwing.step Sample.world Sample.project
     SampleCollaborators.throwingHandler (CallFileWasDeleted "/a.graphql")
     (Throwing.run Sample.world Sample.project
        SampleCollaborators.throwingHandler
        [CallOnDiagnostics 7; CallFileDidChange "/a.graphql"] construct)).2
  = Throw "handler failed".
Proof. reflexivity. Qed.

End ThrowingExamples.
